(** * MKSServo42C: the serial driver of the MKS Servo 42C (firmware 1.0)

    A shallow embedding of [mksservo42c_10/mksservo42c.py].  Python integers
    are [Z], [bytes] objects are lists of [byte], exceptions are an error
    result, and the serial port is an explicit world that every method
    threads through a small state-and-exception monad. *)

From Stdlib Require Import ZArith List String Bool Lia.
From Stdlib Require Import Strings.Byte.
From Stdlib Require QArith.
Import ListNotations.
Local Open Scope Z_scope.

(** ** Python values *)

Definition bytes := list byte.

(** The exceptions the driver can meet.  [SerialException] is pyserial's
    (its [PortNotOpenError] is a subclass).  [ConnectionError] is Python's
    builtin of that name: neither the driver nor pyserial raises it, and
    [SerialException] is not one of its subclasses. *)
Inductive exn : Type :=
| ValueError
| OverflowError
| IndexError
| SerialException
| ConnectionError.

(** A Python number that is only ever compared with 0 (the read timeout). *)
Definition number : Type := QArith_base.Q.
Definition number_of_Z (z : Z) : number := QArith_base.inject_Z z.
Definition is_negative (q : number) : bool := negb (QArith_base.Qle_bool (number_of_Z 0) q).

Inductive result (A : Type) : Type :=
| Ok (a : A)
| Raise (e : exn).
Arguments Ok {A} a.
Arguments Raise {A} e.

Definition Z_of_byte (b : byte) : Z := Z.of_N (Byte.to_N b).

Definition byte_of_Z (z : Z) : byte :=
  match Byte.of_N (Z.to_N z) with
  | Some b => b
  | None => x00
  end.

(** The [length] big-endian base-256 digits of [x]. *)
Fixpoint be_digits (length : nat) (x : Z) : bytes :=
  match length with
  | O => []
  | S n => be_digits n (x / 256) ++ [byte_of_Z (x mod 256)]
  end.

(** [x.to_bytes(length, 'big')], unsigned: a negative [x] and an [x] that
    does not fit both raise [OverflowError]. *)
Definition to_bytes (length : nat) (x : Z) : result bytes :=
  if x <? 0 then Raise OverflowError
  else if 256 ^ Z.of_nat length <=? x then Raise OverflowError
  else Ok (be_digits length x).

Definition from_bytes_unsigned (bs : bytes) : Z :=
  fold_left (fun acc b => acc * 256 + Z_of_byte b) bs 0.

(** [int.from_bytes(bs, byteorder='big', signed=signed)]; the empty
    string is 0 whatever [signed] is. *)
Definition from_bytes (bs : bytes) (signed : bool) : Z :=
  match bs with
  | [] => 0
  | b :: _ =>
      if signed && (128 <=? Z_of_byte b)
      then from_bytes_unsigned bs - 256 ^ Z.of_nat (List.length bs)
      else from_bytes_unsigned bs
  end.

(** [b''.join(chunks)] *)
Definition join (chunks : list bytes) : bytes := List.concat chunks.

(** [sum(packed)] over a bytes object *)
Definition sum (packed : bytes) : Z :=
  fold_right (fun b acc => Z_of_byte b + acc) 0 packed.

(** [response[i]] *)
Definition index (response : bytes) (i : nat) : result Z :=
  match nth_error response i with
  | Some b => Ok (Z_of_byte b)
  | None => Raise IndexError
  end.

(** [response[lo:hi]] for non-negative bounds *)
Definition slice (response : bytes) (lo hi : nat) : bytes :=
  firstn (hi - lo) (skipn lo response).

(** ** The serial port *)

Inductive event : Type :=
| EvOpen (port : string)
| EvClose
| EvWrite (data : bytes)
| EvFlush
| EvRead (size : nat) (got : bytes)
| EvSleep
| EvPrint (msg : string).

(** The port as the driver sees it: which device names the operating system
    lets us open, whether the handle is open, the bytes the device delivers
    before the read timeout runs out, and what has happened so far.  While
    the port is closed nothing is pending, and [rx] is what arrives once it
    has been opened. *)
Record World : Type := mkWorld {
  openable : string -> bool;
  is_open : bool;
  rx : bytes;
  trace : list event
}.

Definition log (e : event) (w : World) : World :=
  mkWorld (openable w) (is_open w) (rx w) (trace w ++ [e]).

Definition set_open (b : bool) (w : World) : World :=
  mkWorld (openable w) b (rx w) (trace w).

Definition set_rx (r : bytes) (w : World) : World :=
  mkWorld (openable w) (is_open w) r (trace w).

(** State and exceptions. *)
Definition M (A : Type) : Type := World -> World * result A.

Definition ret {A} (a : A) : M A := fun w => (w, Ok a).
Definition raise {A} (e : exn) : M A := fun w => (w, Raise e).
Definition bind {A B} (m : M A) (k : A -> M B) : M B :=
  fun w =>
    match m w with
    | (w', Ok a) => k a w'
    | (w', Raise e) => (w', Raise e)
    end.
Definition lift {A} (r : result A) : M A := fun w => (w, r).

(** [try: body except SerialException: handler] *)
Definition try_except_SerialException (body handler : M unit) : M unit :=
  fun w =>
    match body w with
    | (w', Raise SerialException) => handler w'
    | other => other
    end.

Notation "x <- m ;; k" := (bind m (fun x => k))
  (at level 61, m at next level, right associativity).
Notation "m ;; k" := (bind m (fun _ => k))
  (at level 61, right associativity).

(** pyserial's [Serial.open()].  It refuses a port that is open already,
    so it only ever runs on a closed port, where no input is pending for
    its reset of the input buffer to discard. *)
Definition ser_open (port : string) : M unit :=
  fun w =>
    if is_open w then (w, Raise SerialException)
    else
      let w1 := log (EvOpen port) w in
      if openable w port then (set_open true w1, Ok tt)
      else (w1, Raise SerialException).

(** pyserial's [Serial(port=..., baudrate=..., timeout=...)]: the
    constructor first checks its settings, raising [ValueError] for a
    negative baud rate and then for a negative timeout, and with a port
    name given it then opens the port at once. *)
Definition serial_Serial (port : string) (baudrate : Z) (timeout : number) : M unit :=
  fun w =>
    if baudrate <? 0 then (w, Raise ValueError)
    else if is_negative timeout then (w, Raise ValueError)
    else ser_open port (set_open false w).

(** pyserial's [Serial.close()]: the bytes not read by then are lost. *)
Definition ser_close : M unit :=
  fun w => (set_rx [] (set_open false (log EvClose w)), Ok tt).

Definition ser_write (data : bytes) : M unit :=
  fun w =>
    if is_open w then (log (EvWrite data) w, Ok tt)
    else (w, Raise SerialException).

Definition ser_flush : M unit :=
  fun w =>
    if is_open w then (log EvFlush w, Ok tt)
    else (w, Raise SerialException).

(** [read(size)] hands over at most [size] bytes: those that arrived before
    the timeout. *)
Definition ser_read (size : nat) : M bytes :=
  fun w =>
    if is_open w then
      let got := firstn size (rx w) in
      (log (EvRead size got) (set_rx (skipn size (rx w)) w), Ok got)
    else (w, Raise SerialException).

Definition time_sleep : M unit := fun w => (log EvSleep w, Ok tt).
Definition print (msg : string) : M unit := fun w => (log (EvPrint msg) w, Ok tt).

(** ** The driver *)

Definition _READ_ENCODER_VALUE : Z := 0x30.
Definition _READ_NUMBER_OF_PULSES_RECEIVED : Z := 0x33.
Definition _READ_MOTOR_SHAFT_ANGLE : Z := 0x36.
Definition _READ_MOTOR_SHAFT_ERROR_ANGLE : Z := 0x39.
Definition _READ_EN_PIN_STATUS : Z := 0x3A.
Definition _READ_MOTOR_SHAFT_STATUS : Z := 0x3E.
Definition _WRITE_SET_SUBDIVISON : Z := 0x84.
Definition _WRITE_SET_ACTIVE_EN_PIN : Z := 0x85.
Definition _WRITE_SET_EN_PIN_STATUS : Z := 0xF3.
Definition _WRITE_RUN_CONSTANT_SPEED : Z := 0xF6.
Definition _WRITE_STOP_MOTOR : Z := 0xF7.
Definition _WRITE_RUN_MOTOR_TO_POSITION : Z := 0xFD.
Definition _WRITE_SAVE_CLEAR_F6_STATUS : Z := 0xFF.

(** The fields [__init__] sets.  What the read timeout does lives in the
    world, as the bytes that arrive in time. *)
Record MKSServo42C : Type := mkServo {
  _port : string;
  _address : Z;
  _baudrate : Z;
  _timeout : number;
  _position : Z;
  _acceleration : Z;
  _speed : Z
}.

Definition connect (self : MKSServo42C) : M unit :=
  try_except_SerialException
    (fun w =>
       if negb (is_open w)
       then (ser_open (_port self) ;; print "Serial port opened successfully."%string) w
       else (w, Ok tt))
    (print "Serial error"%string).

Definition __init__ (port : string) (baudrate : Z) (timeout : number) (address : Z)
    : M MKSServo42C :=
  let self := mkServo port address baudrate timeout (-1) 0 0 in
  serial_Serial port baudrate timeout ;;
  connect self ;;
  ret self.

Definition disconnect (self : MKSServo42C) : M unit :=
  fun w => if is_open w then ser_close w else (w, Ok tt).

Definition calculate_checksum (data : list bytes) : Z :=
  let packed := join data in
  Z.land (sum packed) 0xFF.

Definition read_motor_shaft_status (self : MKSServo42C) : M Z :=
  a <- lift (to_bytes 1 (_address self)) ;;
  o <- lift (to_bytes 1 _READ_MOTOR_SHAFT_STATUS) ;;
  let commandpacket := [a; o] in
  let packet_bytes := join commandpacket in
  ser_write packet_bytes ;;
  response <- ser_read 2 ;;
  lift (index response 1).

Definition read_motor_shaft_angle (self : MKSServo42C) : M Z :=
  a <- lift (to_bytes 1 (_address self)) ;;
  o <- lift (to_bytes 1 _READ_MOTOR_SHAFT_ANGLE) ;;
  let commandpacket := [a; o] in
  let packet_bytes := join commandpacket in
  ser_write packet_bytes ;;
  response <- ser_read 5 ;;
  ret (from_bytes (slice response 1 5) false).

Definition read_motor_shaft_error_angle (self : MKSServo42C) : M Z :=
  a <- lift (to_bytes 1 (_address self)) ;;
  o <- lift (to_bytes 1 _READ_MOTOR_SHAFT_ERROR_ANGLE) ;;
  let commandpacket := [a; o] in
  let packet_bytes := join commandpacket in
  ser_write packet_bytes ;;
  response <- ser_read 3 ;;
  ret (from_bytes (slice response 1 3) true).

Definition read_pulses_received (self : MKSServo42C) : M Z :=
  a <- lift (to_bytes 1 (_address self)) ;;
  o <- lift (to_bytes 1 _READ_NUMBER_OF_PULSES_RECEIVED) ;;
  let commandpacket := [a; o] in
  let packet_bytes := join commandpacket in
  ser_write packet_bytes ;;
  response <- ser_read 5 ;;
  let response := slice response 1 5 in
  let retVal := from_bytes response true in
  ret retVal.

(** Falls off the end of the method: returns [None]. *)
Definition get_encoder_value (self : MKSServo42C) : M unit :=
  a <- lift (to_bytes 1 (_address self)) ;;
  o <- lift (to_bytes 1 _READ_ENCODER_VALUE) ;;
  let commandpacket := [a; o] in
  let packet_bytes := join commandpacket in
  ser_write packet_bytes ;;
  response <- ser_read 3 ;;
  ret tt.

Definition set_subdivision (self : MKSServo42C) (subdivision : Z) : M unit :=
  a <- lift (to_bytes 1 (_address self)) ;;
  o <- lift (to_bytes 1 _WRITE_SET_SUBDIVISON) ;;
  p <- lift (to_bytes 1 subdivision) ;;
  let commandpacket := [a; o; p] in
  let packet_bytes := join commandpacket in
  ser_write packet_bytes ;;
  response <- ser_read 2 ;;
  ret tt.

Definition move_to (self : MKSServo42C) (dir : string) (speed position : Z) : M unit :=
  speed <- (if String.eqb dir "CCW"%string then ret speed
            else if String.eqb dir "CW"%string then ret (Z.lor speed 0x80)
            else raise ValueError) ;;
  speed <- lift (to_bytes 1 speed) ;;
  a <- lift (to_bytes 1 (_address self)) ;;
  o <- lift (to_bytes 1 _WRITE_RUN_MOTOR_TO_POSITION) ;;
  p <- lift (to_bytes 2 position) ;;
  let commandpacket := [a; o; speed; p] in
  let packet_bytes := join commandpacket in
  ser_write packet_bytes ;;
  response <- ser_read 2 ;;
  ret tt.

Definition move (self : MKSServo42C) (direction : string) (speed : Z) : M unit :=
  speed <- (if String.eqb direction "CCW"%string then ret speed
            else if String.eqb direction "CW"%string then ret (Z.lor speed 0x80)
            else raise ValueError) ;;
  a <- lift (to_bytes 1 (_address self)) ;;
  o <- lift (to_bytes 1 _WRITE_RUN_CONSTANT_SPEED) ;;
  s <- lift (to_bytes 1 speed) ;;
  let commandpacket := [a; o; s] in
  let packet_bytes := join commandpacket in
  ser_write packet_bytes ;;
  response <- ser_read 2 ;;
  ret tt.

Definition stop (self : MKSServo42C) : M unit :=
  a <- lift (to_bytes 1 (_address self)) ;;
  o <- lift (to_bytes 1 _WRITE_STOP_MOTOR) ;;
  let commandpacket := [a; o] in
  let packet_bytes := join commandpacket in
  ser_write packet_bytes ;;
  ser_flush ;;
  time_sleep ;;
  response <- ser_read 2 ;;
  ret tt.

Definition set_en_pin_status (self : MKSServo42C) (status : Z) : M unit :=
  a <- lift (to_bytes 1 (_address self)) ;;
  o <- lift (to_bytes 1 _WRITE_SET_EN_PIN_STATUS) ;;
  p <- lift (to_bytes 1 status) ;;
  let commandpacket := [a; o; p] in
  let packet_bytes := join commandpacket in
  ser_write packet_bytes ;;
  ser_flush ;;
  time_sleep ;;
  response <- ser_read 3 ;;
  ret tt.

Definition set_active_of_en_pin (self : MKSServo42C) (active : Z) : M unit :=
  a <- lift (to_bytes 1 (_address self)) ;;
  o <- lift (to_bytes 1 _WRITE_SET_ACTIVE_EN_PIN) ;;
  p <- lift (to_bytes 1 active) ;;
  let commandpacket := [a; o; p] in
  let checksum := calculate_checksum commandpacket in
  c <- lift (to_bytes 1 checksum) ;;
  let commandpacket := commandpacket ++ [c] in
  let packet_bytes := join commandpacket in
  ser_write packet_bytes ;;
  response <- ser_read 3 ;;
  ret tt.

(** ** What a call puts on the wire *)

Fixpoint writes (evs : list event) : list bytes :=
  match evs with
  | [] => []
  | EvWrite data :: rest => data :: writes rest
  | _ :: rest => writes rest
  end.

Fixpoint reads (evs : list event) : list nat :=
  match evs with
  | [] => []
  | EvRead size _ :: rest => size :: reads rest
  | _ :: rest => reads rest
  end.

(** The events a computation adds to the trace when run from [w]. *)
Definition events {A} (m : M A) (w : World) : list event :=
  skipn (List.length (trace w)) (trace (fst (m w))).

(** The frames a computation transmits, in order, when run from [w]. *)
Definition sent {A} (m : M A) (w : World) : list bytes := writes (events m w).

(** The byte counts a computation asks [read] for, in order. *)
Definition requested {A} (m : M A) (w : World) : list nat := reads (events m w).

(** The outcome of a computation run from [w]. *)
Definition outcome {A} (m : M A) (w : World) : result A := snd (m w).

(** ** Fixtures, the operation table and the frame layout *)

(** The speed byte both motion commands compute from a valid direction. *)
Definition speed_with_direction (direction : string) (speed : Z) : Z :=
  if String.eqb direction "CW" then Z.lor speed 0x80 else speed.

(** A link at the default address on an open port with nothing to read. *)
Definition servo0 : MKSServo42C :=
  mkServo "/dev/ttyUSB0" 0xE0 9600 (number_of_Z 1) (-1) 0 0.
Definition world0 : World := mkWorld (fun _ => true) true [] [].

Definition world_reply (reply : bytes) : World := mkWorld (fun _ => true) true reply [].

(** The ports a run tried to open, in order. *)
Fixpoint opens (evs : list event) : list string :=
  match evs with
  | [] => []
  | EvOpen port :: rest => port :: opens rest
  | _ :: rest => opens rest
  end.

Definition world_no_port : World := mkWorld (fun _ => false) false [] [].

Inductive operation : Type :=
| OpReadPulsesReceived
| OpReadMotorShaftStatus
| OpReadMotorShaftAngle
| OpReadMotorShaftErrorAngle
| OpGetEncoderValue
| OpSetSubdivision (subdivision : Z)
| OpMove (direction : string) (speed : Z)
| OpMoveTo (dir : string) (speed position : Z)
| OpStop
| OpSetEnPinStatus (status : Z)
| OpSetActiveOfEnPin (active : Z).

Definition fmap {A B} (f : A -> B) (m : M A) : M B := a <- m ;; ret (f a).

(** Calling a method by name; a method without a return value gives [None]. *)
Definition call (self : MKSServo42C) (op : operation) : M (option Z) :=
  match op with
  | OpReadPulsesReceived => fmap Some (read_pulses_received self)
  | OpReadMotorShaftStatus => fmap Some (read_motor_shaft_status self)
  | OpReadMotorShaftAngle => fmap Some (read_motor_shaft_angle self)
  | OpReadMotorShaftErrorAngle => fmap Some (read_motor_shaft_error_angle self)
  | OpGetEncoderValue => fmap (fun _ => None) (get_encoder_value self)
  | OpSetSubdivision v => fmap (fun _ => None) (set_subdivision self v)
  | OpMove d s => fmap (fun _ => None) (move self d s)
  | OpMoveTo d s p => fmap (fun _ => None) (move_to self d s p)
  | OpStop => fmap (fun _ => None) (stop self)
  | OpSetEnPinStatus v => fmap (fun _ => None) (set_en_pin_status self v)
  | OpSetActiveOfEnPin v => fmap (fun _ => None) (set_active_of_en_pin self v)
  end.

(** The frame layout as the specification tables give it: opcode, payload,
    and which operation is checksum-framed. *)
Definition opcode (op : operation) : Z :=
  match op with
  | OpGetEncoderValue => 0x30
  | OpReadPulsesReceived => 0x33
  | OpReadMotorShaftAngle => 0x36
  | OpReadMotorShaftErrorAngle => 0x39
  | OpReadMotorShaftStatus => 0x3E
  | OpSetSubdivision _ => 0x84
  | OpSetActiveOfEnPin _ => 0x85
  | OpSetEnPinStatus _ => 0xF3
  | OpMove _ _ => 0xF6
  | OpStop => 0xF7
  | OpMoveTo _ _ _ => 0xFD
  end.

Definition payload (op : operation) : bytes :=
  match op with
  | OpSetSubdivision v | OpSetEnPinStatus v | OpSetActiveOfEnPin v => [byte_of_Z v]
  | OpMove d s => [byte_of_Z (speed_with_direction d s)]
  | OpMoveTo d s p =>
      [byte_of_Z (speed_with_direction d s); byte_of_Z (p / 256); byte_of_Z (p mod 256)]
  | _ => []
  end.

Definition checksummed (op : operation) : bool :=
  match op with
  | OpSetActiveOfEnPin _ => true
  | _ => false
  end.

Definition unframed (self : MKSServo42C) (op : operation) : bytes :=
  [byte_of_Z (_address self); byte_of_Z (opcode op)] ++ payload op.

Definition frame (self : MKSServo42C) (op : operation) : bytes :=
  unframed self op ++
  (if checksummed op then [byte_of_Z (sum (unframed self op) mod 256)] else []).

(** The arguments with which a call gets as far as the port. *)
Definition valid_call (self : MKSServo42C) (op : operation) : Prop :=
  0 <= _address self <= 255 /\
  match op with
  | OpSetSubdivision v | OpSetEnPinStatus v | OpSetActiveOfEnPin v => 0 <= v <= 255
  | OpMove d s =>
      (d = "CW"%string \/ d = "CCW"%string) /\ 0 <= speed_with_direction d s <= 255
  | OpMoveTo d s p =>
      (d = "CW"%string \/ d = "CCW"%string) /\ 0 <= speed_with_direction d s <= 255
      /\ 0 <= p <= 65535
  | _ => True
  end.

(** ** The rest of the driver's surface and the example scripts *)

(** The byte count each method passes to [read]. *)
Definition reply_length (op : operation) : nat :=
  match op with
  | OpReadPulsesReceived | OpReadMotorShaftAngle => 5
  | OpReadMotorShaftErrorAngle | OpGetEncoderValue
  | OpSetEnPinStatus _ | OpSetActiveOfEnPin _ => 3
  | _ => 2
  end.

(** What a method does between its write and its read: [stop] and
    [set_en_pin_status] flush and sleep, the others go straight on. *)
Definition settle (op : operation) : list event :=
  match op with
  | OpStop | OpSetEnPinStatus _ => [EvFlush; EvSleep]
  | _ => []
  end.

(** A motion command whose direction token is neither "CW" nor "CCW". *)
Definition bad_direction (op : operation) : bool :=
  match op with
  | OpMove d _ | OpMoveTo d _ _ => negb (String.eqb d "CCW" || String.eqb d "CW")
  | _ => false
  end.

(** A computation that neither opens nor closes the port and only adds to
    the trace. *)
Definition steady {A} (m : M A) : Prop :=
  forall w,
    is_open (fst (m w)) = is_open w
    /\ openable (fst (m w)) = openable w
    /\ exists evs, trace (fst (m w)) = trace w ++ evs.

(** A port that can be opened and is not open yet. *)
Definition world_no_port_open : World := mkWorld (fun _ => true) false [] [].

(** A device that acknowledges each command, reports 0 pulses at first and
    400 at the second poll. *)
Definition world_pulses_arrive : World :=
  mkWorld (fun _ => true) false
    ([xe0; x01] ++ [xe0; x00; x00; x00; x00] ++ [xe0; x01]
     ++ [xe0; x00; x00; x00; x64] ++ [xe0; x00; x00; x01; x90] ++ [xe0; x01])
    [].

(** [example2.py] *)
Definition example2 : M unit :=
  servo <- __init__ "/dev/ttyACM0" 115200 (number_of_Z 1) 0xE0 ;;
  set_subdivision servo 0x08 ;;
  move_to servo "CW" 0x70 0x0080.

(** The polling loop of [example3.py],
    [while servo.read_pulses_received() < destination_pulses: time.sleep(0.01)],
    run for at most [fuel] rounds: [true] when the loop was left, [false]
    when it is still going after [fuel] rounds. *)
Fixpoint while_pulses_below (fuel : nat) (servo : MKSServo42C) (destination_pulses : Z)
    : M bool :=
  match fuel with
  | O => ret false
  | S fuel' =>
      pulses <- read_pulses_received servo ;;
      if pulses <? destination_pulses
      then time_sleep ;; while_pulses_below fuel' servo destination_pulses
      else ret true
  end.

(** [example3.py]; [stop] is reached only once the loop is left. *)
Definition example3 (fuel : nat) : M bool :=
  servo <- __init__ "/dev/ttyACM0" 115200 (number_of_Z 1) 0xE0 ;;
  set_subdivision servo 0x08 ;;
  start_pulses <- read_pulses_received servo ;;
  let destination_pulses := start_pulses + 400 in
  move servo "CW" 0x70 ;;
  left <- while_pulses_below fuel servo destination_pulses ;;
  if left then stop servo ;; ret true else ret false.

(** One round of the polling loop against a device that sends nothing. *)
Definition silent_round (self : MKSServo42C) : list event :=
  [EvWrite [byte_of_Z (_address self); x33]; EvRead 5 []; EvSleep].

(** ** Conversion lemmas *)

Lemma Z_of_byte_range (b : byte) : 0 <= Z_of_byte b <= 255.
Proof.
  unfold Z_of_byte. pose proof (Byte.to_N_bounded b). lia.
Qed.

Lemma Z_of_byte_of_Z (z : Z) : 0 <= z <= 255 -> Z_of_byte (byte_of_Z z) = z.
Proof.
  intros Hz. unfold Z_of_byte, byte_of_Z.
  destruct (Byte.of_N (Z.to_N z)) as [b|] eqn:E.
  - apply Byte.to_of_N in E. rewrite E. lia.
  - apply Byte.of_N_None_iff in E. lia.
Qed.

Lemma to_bytes_1_ok (x : Z) : 0 <= x <= 255 -> to_bytes 1 x = Ok [byte_of_Z x].
Proof.
  intros Hx. unfold to_bytes.
  destruct (Z.ltb_spec x 0); [lia|].
  change (256 ^ Z.of_nat 1) with 256.
  destruct (Z.leb_spec 256 x); [lia|].
  cbn [be_digits app]. rewrite Z.mod_small by lia. reflexivity.
Qed.

Lemma to_bytes_2_ok (x : Z) :
  0 <= x <= 65535 -> to_bytes 2 x = Ok [byte_of_Z (x / 256); byte_of_Z (x mod 256)].
Proof.
  intros Hx. unfold to_bytes.
  destruct (Z.ltb_spec x 0); [lia|].
  change (256 ^ Z.of_nat 2) with 65536.
  destruct (Z.leb_spec 65536 x); [lia|].
  cbn [be_digits app].
  rewrite (Z.mod_small (x / 256)); [reflexivity|].
  split; [apply Z.div_pos; lia | apply Z.div_lt_upper_bound; lia].
Qed.

Lemma to_bytes_overflow (n : nat) (x : Z) :
  x < 0 \/ 256 ^ Z.of_nat n <= x -> to_bytes n x = Raise OverflowError.
Proof.
  intros Hx. unfold to_bytes.
  destruct (Z.ltb_spec x 0); [reflexivity|].
  destruct (Z.leb_spec (256 ^ Z.of_nat n) x); [reflexivity|lia].
Qed.

Lemma to_bytes_cases (n : nat) (x : Z) :
  to_bytes n x = Raise OverflowError \/ to_bytes n x = Ok (be_digits n x).
Proof.
  unfold to_bytes.
  destruct (x <? 0); [now left|].
  destruct (256 ^ Z.of_nat n <=? x); [now left|now right].
Qed.

Lemma skipn_length_app {A} (l r : list A) : skipn (List.length l) (l ++ r) = r.
Proof.
  induction l as [|a l IH]; [reflexivity | exact IH].
Qed.

Lemma events_app {A} (m : M A) (w : World) (evs : list event) :
  trace (fst (m w)) = trace w ++ evs -> events m w = evs.
Proof.
  intros H. unfold events. rewrite H. apply skipn_length_app.
Qed.

Lemma events_same {A} (m : M A) (w : World) :
  fst (m w) = w -> events m w = [].
Proof.
  intros H. apply events_app. rewrite H, app_nil_r. reflexivity.
Qed.

(** Unfolds one method down to the port primitives. *)
Ltac step_world Hopen :=
  unfold bind, lift, ret, raise, ser_write, ser_flush, ser_read, time_sleep,
    log, set_rx;
  cbn [is_open rx trace openable fst snd];
  repeat (rewrite Hopen; cbn [is_open rx trace openable fst snd]).

Ltac norm_trace := repeat rewrite <- app_assoc; cbn [app].

(** C2: against address 0xE0, [move_to("CW", 0x70, 0x0080)] transmits
    exactly one frame, the five bytes E0 FD F0 00 80: address, opcode 0xFD,
    speed byte 0x70 | 0x80 = 0xF0, and the position 0x0080 as two big-endian
    bytes. *)
Theorem move_to_example_frame (self : MKSServo42C) (w : World) :
  _address self = 0xE0 ->
  is_open w = true ->
  sent (move_to self "CW" 0x70 0x0080) w = [[xe0; xfd; xf0; x00; x80]]
  /\ outcome (move_to self "CW" 0x70 0x0080) w = Ok tt
  /\ Z.lor 0x70 0x80 = 0xF0.
Proof.
  intros Ha Hopen.
  assert (Hrun : exists w', move_to self "CW" 112 128 w = (w', Ok tt) /\
            trace w' = trace w ++ [EvWrite [xe0; xfd; xf0; x00; x80];
                                   EvRead 2 (firstn 2 (rx w))]).
  { unfold move_to. rewrite Ha. cbn [String.eqb Ascii.eqb Bool.eqb].
    step_world Hopen. eexists; split; [reflexivity|].
    cbn [trace]. norm_trace. reflexivity. }
  destruct Hrun as (w' & Hrun & Htr).
  unfold sent, outcome. rewrite (events_app _ _ _ (eq_trans (f_equal trace (f_equal fst Hrun)) Htr)).
  rewrite Hrun. repeat split.
Qed.

(** ** The checksum helper *)

Lemma calculate_checksum_mod (data : list bytes) :
  calculate_checksum data = sum (join data) mod 256.
Proof.
  unfold calculate_checksum. change 0xFF with (Z.ones 8).
  rewrite Z.land_ones by lia. reflexivity.
Qed.

Lemma calculate_checksum_range (data : list bytes) :
  0 <= calculate_checksum data <= 255.
Proof.
  rewrite calculate_checksum_mod.
  pose proof (Z.mod_pos_bound (sum (join data)) 256). lia.
Qed.

(** ** Successful runs

    With the port open, the address a byte and the payload in range, each
    method writes one frame and then reads. *)

Section Runs.
Variable self : MKSServo42C.
Variable w : World.
Hypothesis Hopen : is_open w = true.
Hypothesis Haddr : 0 <= _address self <= 255.

Let a : byte := byte_of_Z (_address self).

Ltac run_ok :=
  rewrite ?(to_bytes_1_ok _ Haddr);
  step_world Hopen; eexists; split; [reflexivity|];
  cbn [trace rx]; norm_trace; split; reflexivity.

Lemma read_motor_shaft_status_run :
  exists w', read_motor_shaft_status self w = (w', index (firstn 2 (rx w)) 1)
    /\ trace w' = trace w ++ [EvWrite [a; x3e]; EvRead 2 (firstn 2 (rx w))]
    /\ rx w' = skipn 2 (rx w).
Proof.
  unfold read_motor_shaft_status. rewrite ?(to_bytes_1_ok _ Haddr).
  step_world Hopen.
  destruct (index (firstn 2 (rx w)) 1); (eexists; split; [reflexivity|]);
    cbn [trace rx]; norm_trace; split; reflexivity.
Qed.

Lemma read_motor_shaft_angle_run :
  exists w', read_motor_shaft_angle self w
             = (w', Ok (from_bytes (slice (firstn 5 (rx w)) 1 5) false))
    /\ trace w' = trace w ++ [EvWrite [a; x36]; EvRead 5 (firstn 5 (rx w))]
    /\ rx w' = skipn 5 (rx w).
Proof. unfold read_motor_shaft_angle. run_ok. Qed.

Lemma read_motor_shaft_error_angle_run :
  exists w', read_motor_shaft_error_angle self w
             = (w', Ok (from_bytes (slice (firstn 3 (rx w)) 1 3) true))
    /\ trace w' = trace w ++ [EvWrite [a; x39]; EvRead 3 (firstn 3 (rx w))]
    /\ rx w' = skipn 3 (rx w).
Proof. unfold read_motor_shaft_error_angle. run_ok. Qed.

Lemma read_pulses_received_run :
  exists w', read_pulses_received self w
             = (w', Ok (from_bytes (slice (firstn 5 (rx w)) 1 5) true))
    /\ trace w' = trace w ++ [EvWrite [a; x33]; EvRead 5 (firstn 5 (rx w))]
    /\ rx w' = skipn 5 (rx w).
Proof. unfold read_pulses_received. run_ok. Qed.

Lemma get_encoder_value_run :
  exists w', get_encoder_value self w = (w', Ok tt)
    /\ trace w' = trace w ++ [EvWrite [a; x30]; EvRead 3 (firstn 3 (rx w))]
    /\ rx w' = skipn 3 (rx w).
Proof. unfold get_encoder_value. run_ok. Qed.

Lemma set_subdivision_run (subdivision : Z) :
  0 <= subdivision <= 255 ->
  exists w', set_subdivision self subdivision w = (w', Ok tt)
    /\ trace w' = trace w ++ [EvWrite [a; x84; byte_of_Z subdivision];
                              EvRead 2 (firstn 2 (rx w))]
    /\ rx w' = skipn 2 (rx w).
Proof.
  intros Hv. unfold set_subdivision. rewrite (to_bytes_1_ok _ Hv). run_ok.
Qed.

Lemma stop_run :
  exists w', stop self w = (w', Ok tt)
    /\ trace w' = trace w ++ [EvWrite [a; xf7]; EvFlush; EvSleep;
                              EvRead 2 (firstn 2 (rx w))]
    /\ rx w' = skipn 2 (rx w).
Proof. unfold stop. run_ok. Qed.

Lemma set_en_pin_status_run (status : Z) :
  0 <= status <= 255 ->
  exists w', set_en_pin_status self status w = (w', Ok tt)
    /\ trace w' = trace w ++ [EvWrite [a; xf3; byte_of_Z status]; EvFlush; EvSleep;
                              EvRead 3 (firstn 3 (rx w))]
    /\ rx w' = skipn 3 (rx w).
Proof.
  intros Hv. unfold set_en_pin_status. rewrite (to_bytes_1_ok _ Hv). run_ok.
Qed.

Lemma set_active_of_en_pin_run (active : Z) :
  0 <= active <= 255 ->
  exists w', set_active_of_en_pin self active w = (w', Ok tt)
    /\ trace w' = trace w ++
         [EvWrite [a; x85; byte_of_Z active;
                   byte_of_Z (calculate_checksum [[a]; [x85]; [byte_of_Z active]])];
          EvRead 3 (firstn 3 (rx w))]
    /\ rx w' = skipn 3 (rx w).
Proof.
  intros Hv. unfold set_active_of_en_pin.
  rewrite (to_bytes_1_ok _ Hv), (to_bytes_1_ok _ Haddr).
  change (to_bytes 1 _WRITE_SET_ACTIVE_EN_PIN) with (Ok [x85]).
  unfold bind at 1 2 3. unfold lift at 1 2 3.
  rewrite (to_bytes_1_ok _ (calculate_checksum_range _)).
  run_ok.
Qed.

Lemma move_CW_run (speed : Z) :
  0 <= Z.lor speed 0x80 <= 255 ->
  exists w', move self "CW" speed w = (w', Ok tt)
    /\ trace w' = trace w ++ [EvWrite [a; xf6; byte_of_Z (Z.lor speed 0x80)];
                              EvRead 2 (firstn 2 (rx w))]
    /\ rx w' = skipn 2 (rx w).
Proof.
  intros Hv. unfold move. cbn [String.eqb Ascii.eqb Bool.eqb].
  unfold bind at 1, ret at 1. unfold bind at 1 2 3. unfold lift at 1 2 3.
  rewrite (to_bytes_1_ok _ Hv). run_ok.
Qed.

Lemma move_CCW_run (speed : Z) :
  0 <= speed <= 255 ->
  exists w', move self "CCW" speed w = (w', Ok tt)
    /\ trace w' = trace w ++ [EvWrite [a; xf6; byte_of_Z speed];
                              EvRead 2 (firstn 2 (rx w))]
    /\ rx w' = skipn 2 (rx w).
Proof.
  intros Hv. unfold move. cbn [String.eqb Ascii.eqb Bool.eqb].
  unfold bind at 1, ret at 1. unfold bind at 1 2 3. unfold lift at 1 2 3.
  rewrite (to_bytes_1_ok _ Hv). run_ok.
Qed.

Lemma move_to_CW_run (speed position : Z) :
  0 <= Z.lor speed 0x80 <= 255 -> 0 <= position <= 65535 ->
  exists w', move_to self "CW" speed position w = (w', Ok tt)
    /\ trace w' = trace w ++
         [EvWrite [a; xfd; byte_of_Z (Z.lor speed 0x80);
                   byte_of_Z (position / 256); byte_of_Z (position mod 256)];
          EvRead 2 (firstn 2 (rx w))]
    /\ rx w' = skipn 2 (rx w).
Proof.
  intros Hv Hp. unfold move_to. cbn [String.eqb Ascii.eqb Bool.eqb].
  unfold bind at 1, ret at 1.
  rewrite (to_bytes_1_ok _ Hv), (to_bytes_2_ok _ Hp). run_ok.
Qed.

Lemma move_to_CCW_run (speed position : Z) :
  0 <= speed <= 255 -> 0 <= position <= 65535 ->
  exists w', move_to self "CCW" speed position w = (w', Ok tt)
    /\ trace w' = trace w ++
         [EvWrite [a; xfd; byte_of_Z speed;
                   byte_of_Z (position / 256); byte_of_Z (position mod 256)];
          EvRead 2 (firstn 2 (rx w))]
    /\ rx w' = skipn 2 (rx w).
Proof.
  intros Hv Hp. unfold move_to. cbn [String.eqb Ascii.eqb Bool.eqb].
  unfold bind at 1, ret at 1.
  rewrite (to_bytes_1_ok _ Hv), (to_bytes_2_ok _ Hp). run_ok.
Qed.
End Runs.

(** Reading the observations off a run. *)
Lemma observe_run {A} (m : M A) (w : World) (r : result A) (evs : list event)
    (rest : bytes) :
  (exists w', m w = (w', r) /\ trace w' = trace w ++ evs /\ rx w' = rest) ->
  events m w = evs /\ outcome m w = r /\ rx (fst (m w)) = rest.
Proof.
  intros (w' & Hrun & Htr & Hrx). unfold outcome. split.
  - apply events_app. rewrite Hrun. exact Htr.
  - rewrite Hrun. split; [reflexivity | exact Hrx].
Qed.

Lemma observe_unchanged {A} (m : M A) (w : World) (r : result A) :
  m w = (w, r) -> sent m w = [] /\ requested m w = [] /\ outcome m w = r.
Proof.
  intros H. unfold sent, requested, outcome.
  rewrite (events_same m w) by (rewrite H; reflexivity).
  rewrite H. repeat split.
Qed.

Lemma lor_0x80_range (speed : Z) : 0 <= speed <= 255 -> 0 <= Z.lor speed 0x80 <= 255.
Proof.
  intros Hs.
  assert (Hnn : 0 <= Z.lor speed 0x80) by (apply Z.lor_nonneg; lia).
  split; [exact Hnn|].
  destruct (Z.eq_dec (Z.lor speed 0x80) 0) as [E|E]; [rewrite E; lia|].
  enough (Z.lor speed 0x80 < 2 ^ 8) by lia.
  apply Z.log2_lt_pow2; [lia|].
  rewrite Z.log2_lor by lia.
  apply Z.max_lub_lt; [|reflexivity].
  destruct (Z.eq_dec speed 0) as [->|Hne]; [reflexivity|].
  apply Z.log2_lt_pow2; lia.
Qed.

Lemma direction_invalid (direction : string) :
  direction <> "CW"%string -> direction <> "CCW"%string ->
  String.eqb direction "CCW" = false /\ String.eqb direction "CW" = false.
Proof.
  intros H1 H2. split; apply String.eqb_neq; assumption.
Qed.

(** C1: for a direction in {"CW", "CCW"} and a speed in 0..0x7F, the speed
    byte (the third byte) of the one frame [move] and [move_to] transmit is
    [speed | 0x80] for "CW" and [speed] for "CCW"; for any other direction
    token both raise [ValueError] (the spec's InvalidArgument) and leave the
    port untouched, so nothing is written. *)
Theorem direction_encoding (self : MKSServo42C) (w : World)
    (direction : string) (speed position : Z) :
  (direction = "CW"%string \/ direction = "CCW"%string ->
   is_open w = true -> 0 <= _address self <= 255 ->
   0 <= speed <= 0x7F -> 0 <= position <= 65535 ->
   exists f1 f2,
     sent (move self direction speed) w = [f1]
     /\ option_map Z_of_byte (nth_error f1 2) = Some (speed_with_direction direction speed)
     /\ sent (move_to self direction speed position) w = [f2]
     /\ option_map Z_of_byte (nth_error f2 2) = Some (speed_with_direction direction speed))
  /\ (direction <> "CW"%string -> direction <> "CCW"%string ->
      move self direction speed w = (w, Raise ValueError)
      /\ move_to self direction speed position w = (w, Raise ValueError)
      /\ sent (move self direction speed) w = []
      /\ sent (move_to self direction speed position) w = []).
Proof.
  split.
  - intros Hd Hopen Haddr Hs Hp.
    assert (Hlor : 0 <= Z.lor speed 0x80 <= 255) by (apply lor_0x80_range; lia).
    destruct Hd as [-> | ->]; unfold speed_with_direction; cbn [String.eqb Ascii.eqb Bool.eqb].
    + destruct (observe_run _ _ _ _ _ (move_CW_run self w Hopen Haddr speed Hlor))
        as (E1 & _ & _).
      destruct (observe_run _ _ _ _ _
                  (move_to_CW_run self w Hopen Haddr speed position Hlor Hp))
        as (E2 & _ & _).
      unfold sent. rewrite E1, E2. do 2 eexists.
      repeat split; cbn; now rewrite Z_of_byte_of_Z.
    + assert (Hs' : 0 <= speed <= 255) by lia.
      destruct (observe_run _ _ _ _ _ (move_CCW_run self w Hopen Haddr speed Hs'))
        as (E1 & _ & _).
      destruct (observe_run _ _ _ _ _
                  (move_to_CCW_run self w Hopen Haddr speed position Hs' Hp))
        as (E2 & _ & _).
      unfold sent. rewrite E1, E2. do 2 eexists.
      repeat split; cbn; now rewrite Z_of_byte_of_Z.
  - intros H1 H2. destruct (direction_invalid direction H1 H2) as (E1 & E2).
    assert (Hm : move self direction speed w = (w, Raise ValueError)).
    { unfold move. rewrite E1, E2. reflexivity. }
    assert (Hmt : move_to self direction speed position w = (w, Raise ValueError)).
    { unfold move_to. rewrite E1, E2. reflexivity. }
    repeat split; try assumption.
    + apply (observe_unchanged _ _ _ Hm).
    + apply (observe_unchanged _ _ _ Hmt).
Qed.

Lemma direction_encoding_witness :
  (exists f1 f2,
     sent (move servo0 "CW" 0x70) world0 = [f1]
     /\ option_map Z_of_byte (nth_error f1 2) = Some (speed_with_direction "CW" 0x70)
     /\ sent (move_to servo0 "CW" 0x70 0x0080) world0 = [f2]
     /\ option_map Z_of_byte (nth_error f2 2) = Some (speed_with_direction "CW" 0x70))
  /\ (move servo0 "UP" 0x70 world0 = (world0, Raise ValueError)
      /\ move_to servo0 "UP" 0x70 0x0080 world0 = (world0, Raise ValueError)
      /\ sent (move servo0 "UP" 0x70) world0 = []
      /\ sent (move_to servo0 "UP" 0x70 0x0080) world0 = []).
Proof.
  split.
  - apply (proj1 (direction_encoding servo0 world0 "CW" 0x70 0x0080));
      [left; reflexivity | reflexivity | simpl; lia | lia | lia].
  - apply (proj2 (direction_encoding servo0 world0 "UP" 0x70 0x0080)); discriminate.
Defined.

Lemma move_to_example_frame_witness :
  sent (move_to servo0 "CW" 0x70 0x0080) world0 = [[xe0; xfd; xf0; x00; x80]]
  /\ outcome (move_to servo0 "CW" 0x70 0x0080) world0 = Ok tt
  /\ Z.lor 0x70 0x80 = 0xF0.
Proof.
  apply (move_to_example_frame servo0 world0); reflexivity.
Defined.

(** C3: the multi-byte reads decode with their own signedness: on the reply
    E0 FF FF FF F0, [read_pulses_received] (signed 32-bit) returns -16 and
    [read_motor_shaft_angle] (unsigned 32-bit) returns 4294967280; on the
    reply E0 FF 00, [read_motor_shaft_error_angle] (signed 16-bit) returns
    -256. *)
Theorem reply_signedness (self : MKSServo42C) (w : World) :
  is_open w = true -> 0 <= _address self <= 255 ->
  (firstn 5 (rx w) = [xe0; xff; xff; xff; xf0] ->
   outcome (read_pulses_received self) w = Ok (-16)
   /\ outcome (read_motor_shaft_angle self) w = Ok 4294967280)
  /\ (firstn 3 (rx w) = [xe0; xff; x00] ->
      outcome (read_motor_shaft_error_angle self) w = Ok (-256)).
Proof.
  intros Hopen Haddr. split.
  - intros Hrx.
    destruct (observe_run _ _ _ _ _ (read_pulses_received_run self w Hopen Haddr))
      as (_ & E1 & _).
    destruct (observe_run _ _ _ _ _ (read_motor_shaft_angle_run self w Hopen Haddr))
      as (_ & E2 & _).
    rewrite E1, E2, Hrx. split; reflexivity.
  - intros Hrx.
    destruct (observe_run _ _ _ _ _ (read_motor_shaft_error_angle_run self w Hopen Haddr))
      as (_ & E & _).
    rewrite E, Hrx. reflexivity.
Qed.

Lemma reply_signedness_witness :
  (outcome (read_pulses_received servo0) (world_reply [xe0; xff; xff; xff; xf0]) = Ok (-16)
   /\ outcome (read_motor_shaft_angle servo0) (world_reply [xe0; xff; xff; xff; xf0])
      = Ok 4294967280)
  /\ outcome (read_motor_shaft_error_angle servo0) (world_reply [xe0; xff; x00]) = Ok (-256).
Proof.
  split.
  - apply (proj1 (reply_signedness servo0 (world_reply [xe0; xff; xff; xff; xf0])
                    eq_refl ltac:(simpl; lia))).
    reflexivity.
  - apply (proj2 (reply_signedness servo0 (world_reply [xe0; xff; x00])
                    eq_refl ltac:(simpl; lia))).
    reflexivity.
Defined.

(** C6: against address 0xE0, [stop()] transmits exactly the two bytes
    E0 F7 and [set_subdivision(0x08)] exactly the three bytes E0 84 08:
    address, opcode and the payload of zero or one byte, nothing else. *)
Theorem stop_and_subdivision_frames (self : MKSServo42C) (w : World) :
  _address self = 0xE0 -> is_open w = true ->
  sent (stop self) w = [[xe0; xf7]]
  /\ sent (set_subdivision self 0x08) w = [[xe0; x84; x08]].
Proof.
  intros Ha Hopen.
  assert (Haddr : 0 <= _address self <= 255) by (rewrite Ha; lia).
  destruct (observe_run _ _ _ _ _ (stop_run self w Hopen Haddr)) as (E1 & _ & _).
  destruct (observe_run _ _ _ _ _
              (set_subdivision_run self w Hopen Haddr 8 ltac:(lia))) as (E2 & _ & _).
  unfold sent. rewrite E1, E2, Ha. split; reflexivity.
Qed.

Lemma stop_and_subdivision_frames_witness :
  sent (stop servo0) world0 = [[xe0; xf7]]
  /\ sent (set_subdivision servo0 0x08) world0 = [[xe0; x84; x08]].
Proof.
  apply (stop_and_subdivision_frames servo0 world0); reflexivity.
Defined.

(** A payload slice that starts past a reply of at most one byte is empty. *)
Lemma slice_short (reply : bytes) (n hi : nat) :
  (List.length reply <= 1)%nat -> slice (firstn n reply) 1 hi = [].
Proof.
  intros Hlen. unfold slice.
  destruct reply as [|b [|c rest]]; cbn in Hlen; try lia.
  - rewrite firstn_nil. cbn. apply firstn_nil.
  - destruct n as [|n]; cbn; rewrite ?firstn_nil; cbn; rewrite ?firstn_nil; reflexivity.
Qed.

(** C9: when at most one byte arrives (a full timeout gives none),
    [read_pulses_received], [read_motor_shaft_angle] and
    [read_motor_shaft_error_angle] each return exactly 0: the payload slice
    from byte 1 on is empty and decodes to zero. *)
Theorem short_reply_reads_zero (self : MKSServo42C) (w : World) :
  is_open w = true -> 0 <= _address self <= 255 ->
  (List.length (rx w) <= 1)%nat ->
  outcome (read_pulses_received self) w = Ok 0
  /\ outcome (read_motor_shaft_angle self) w = Ok 0
  /\ outcome (read_motor_shaft_error_angle self) w = Ok 0.
Proof.
  intros Hopen Haddr Hlen.
  destruct (observe_run _ _ _ _ _ (read_pulses_received_run self w Hopen Haddr))
    as (_ & E1 & _).
  destruct (observe_run _ _ _ _ _ (read_motor_shaft_angle_run self w Hopen Haddr))
    as (_ & E2 & _).
  destruct (observe_run _ _ _ _ _ (read_motor_shaft_error_angle_run self w Hopen Haddr))
    as (_ & E3 & _).
  rewrite E1, E2, E3, !slice_short by exact Hlen.
  repeat split.
Qed.

Lemma short_reply_reads_zero_witness :
  outcome (read_pulses_received servo0) (world_reply [xe0]) = Ok 0
  /\ outcome (read_motor_shaft_angle servo0) (world_reply [xe0]) = Ok 0
  /\ outcome (read_motor_shaft_error_angle servo0) (world_reply [xe0]) = Ok 0.
Proof.
  apply (short_reply_reads_zero servo0 (world_reply [xe0]));
    [reflexivity | simpl; lia | simpl; lia].
Defined.

Lemma to_bytes_1_overflow (x : Z) :
  ~ (0 <= x <= 255) -> to_bytes 1 x = Raise OverflowError.
Proof.
  intros Hx. apply to_bytes_overflow. change (256 ^ Z.of_nat 1) with 256. lia.
Qed.

Lemma to_bytes_2_overflow (x : Z) :
  ~ (0 <= x <= 65535) -> to_bytes 2 x = Raise OverflowError.
Proof.
  intros Hx. apply to_bytes_overflow. change (256 ^ Z.of_nat 2) with 65536. lia.
Qed.

Lemma speed_with_direction_CW (speed : Z) :
  speed_with_direction "CW" speed = Z.lor speed 0x80.
Proof. reflexivity. Qed.

Lemma speed_with_direction_CCW (speed : Z) :
  speed_with_direction "CCW" speed = speed.
Proof. reflexivity. Qed.

(** Splits on whether the address converts; an address that does not
    already raises [OverflowError]. *)
Ltac address_cases self :=
  destruct (to_bytes_cases 1 (_address self)) as [Ea | Ea]; rewrite Ea;
  [reflexivity|].

Lemma set_subdivision_overflow (self : MKSServo42C) (w : World) (v : Z) :
  ~ (0 <= v <= 255) -> set_subdivision self v w = (w, Raise OverflowError).
Proof.
  intros Hv. unfold set_subdivision, bind, lift.
  address_cases self. rewrite (to_bytes_1_overflow _ Hv). reflexivity.
Qed.

Lemma set_en_pin_status_overflow (self : MKSServo42C) (w : World) (v : Z) :
  ~ (0 <= v <= 255) -> set_en_pin_status self v w = (w, Raise OverflowError).
Proof.
  intros Hv. unfold set_en_pin_status, bind, lift.
  address_cases self. rewrite (to_bytes_1_overflow _ Hv). reflexivity.
Qed.

Lemma set_active_of_en_pin_overflow (self : MKSServo42C) (w : World) (v : Z) :
  ~ (0 <= v <= 255) -> set_active_of_en_pin self v w = (w, Raise OverflowError).
Proof.
  intros Hv. unfold set_active_of_en_pin, bind, lift.
  address_cases self. rewrite (to_bytes_1_overflow _ Hv). reflexivity.
Qed.

Lemma move_overflow (self : MKSServo42C) (w : World) (direction : string) (speed : Z) :
  direction = "CW"%string \/ direction = "CCW"%string ->
  ~ (0 <= speed_with_direction direction speed <= 255) ->
  move self direction speed w = (w, Raise OverflowError).
Proof.
  intros [-> | ->] Hv;
    [rewrite speed_with_direction_CW in Hv | rewrite speed_with_direction_CCW in Hv];
    unfold move; cbn [String.eqb Ascii.eqb Bool.eqb];
    unfold bind, lift, ret;
    address_cases self; rewrite (to_bytes_1_overflow _ Hv); reflexivity.
Qed.

Lemma move_to_overflow (self : MKSServo42C) (w : World) (dir : string)
    (speed position : Z) :
  dir = "CW"%string \/ dir = "CCW"%string ->
  ~ (0 <= speed_with_direction dir speed <= 255) \/ ~ (0 <= position <= 65535) ->
  move_to self dir speed position w = (w, Raise OverflowError).
Proof.
  intros Hd Hv.
  assert (H : forall enc, ~ (0 <= enc <= 255) \/ ~ (0 <= position <= 65535) ->
            (s <- lift (to_bytes 1 enc) ;;
             a <- lift (to_bytes 1 (_address self)) ;;
             o <- lift (to_bytes 1 _WRITE_RUN_MOTOR_TO_POSITION) ;;
             p <- lift (to_bytes 2 position) ;;
             ser_write (join [a; o; s; p]) ;;
             response <- ser_read 2 ;;
             ret tt) w = (w, Raise OverflowError)).
  { intros enc [He | Hp]; unfold bind, lift.
    - rewrite (to_bytes_1_overflow _ He). reflexivity.
    - destruct (to_bytes_cases 1 enc) as [Es | Es]; rewrite Es; [reflexivity|].
      address_cases self. rewrite (to_bytes_2_overflow _ Hp). reflexivity. }
  destruct Hd as [-> | ->];
    [rewrite speed_with_direction_CW in Hv | rewrite speed_with_direction_CCW in Hv];
    apply H in Hv; exact Hv.
Qed.

(** C10: a payload argument outside its wire field makes the byte
    conversion raise [OverflowError] before anything is written: the speed
    byte of [move] and [move_to] (after the direction bit is applied)
    outside 0..255, the position of [move_to] outside 0..65535, and the
    value of [set_subdivision], [set_en_pin_status] and
    [set_active_of_en_pin] outside 0..255.  The port is left as it was. *)
Theorem payload_overflow_before_write (self : MKSServo42C) (w : World) :
  (forall direction speed,
      direction = "CW"%string \/ direction = "CCW"%string ->
      ~ (0 <= speed_with_direction direction speed <= 255) ->
      move self direction speed w = (w, Raise OverflowError)
      /\ sent (move self direction speed) w = [])
  /\ (forall dir speed position,
      dir = "CW"%string \/ dir = "CCW"%string ->
      ~ (0 <= speed_with_direction dir speed <= 255) \/ ~ (0 <= position <= 65535) ->
      move_to self dir speed position w = (w, Raise OverflowError)
      /\ sent (move_to self dir speed position) w = [])
  /\ (forall v,
      ~ (0 <= v <= 255) ->
      (set_subdivision self v w = (w, Raise OverflowError)
       /\ sent (set_subdivision self v) w = [])
      /\ (set_en_pin_status self v w = (w, Raise OverflowError)
          /\ sent (set_en_pin_status self v) w = [])
      /\ (set_active_of_en_pin self v w = (w, Raise OverflowError)
          /\ sent (set_active_of_en_pin self v) w = [])).
Proof.
  repeat split.
  - now apply move_overflow.
  - apply (observe_unchanged _ _ _ (move_overflow self w direction speed H H0)).
  - now apply move_to_overflow.
  - apply (observe_unchanged _ _ _ (move_to_overflow self w dir speed position H H0)).
  - now apply set_subdivision_overflow.
  - apply (observe_unchanged _ _ _ (set_subdivision_overflow self w v H)).
  - now apply set_en_pin_status_overflow.
  - apply (observe_unchanged _ _ _ (set_en_pin_status_overflow self w v H)).
  - now apply set_active_of_en_pin_overflow.
  - apply (observe_unchanged _ _ _ (set_active_of_en_pin_overflow self w v H)).
Qed.

Lemma payload_overflow_before_write_witness :
  (move servo0 "CW" 256 world0 = (world0, Raise OverflowError)
   /\ sent (move servo0 "CW" 256) world0 = [])
  /\ (move_to servo0 "CCW" 5 65536 world0 = (world0, Raise OverflowError)
      /\ sent (move_to servo0 "CCW" 5 65536) world0 = [])
  /\ (set_subdivision servo0 (-1) world0 = (world0, Raise OverflowError)
      /\ sent (set_subdivision servo0 (-1)) world0 = [])
  /\ (set_en_pin_status servo0 256 world0 = (world0, Raise OverflowError)
      /\ sent (set_en_pin_status servo0 256) world0 = [])
  /\ (set_active_of_en_pin servo0 300 world0 = (world0, Raise OverflowError)
      /\ sent (set_active_of_en_pin servo0 300) world0 = []).
Proof.
  destruct (payload_overflow_before_write servo0 world0) as (Hm & Hmt & Hset).
  split; [apply (Hm "CW"%string 256); [left; reflexivity | vm_compute; intros [_ H]; apply H; reflexivity]|].
  split; [apply (Hmt "CCW"%string 5 65536); [right; reflexivity | right; lia]|].
  split; [apply (Hset (-1)); lia|].
  split; [apply (Hset 256); lia | apply (Hset 300); lia].
Defined.

Lemma index_1_of_reply (reply : bytes) :
  (2 <= List.length reply)%nat ->
  exists b, nth_error reply 1 = Some b /\ index (firstn 2 reply) 1 = Ok (Z_of_byte b).
Proof.
  intros Hlen. destruct reply as [|b0 [|b1 rest]]; cbn in Hlen; try lia.
  exists b1. split; reflexivity.
Qed.

Lemma index_1_of_short_reply (reply : bytes) :
  (List.length reply < 2)%nat -> index (firstn 2 reply) 1 = Raise IndexError.
Proof.
  intros Hlen. destruct reply as [|b0 [|b1 rest]]; cbn in Hlen; try lia; reflexivity.
Qed.

(** C5, as stated, fails: on an empty reply [read_motor_shaft_status]
    raises [IndexError] instead of returning a number. *)
Lemma read_motor_shaft_status_empty_reply_raises :
  outcome (read_motor_shaft_status servo0) (world_reply []) = Raise IndexError
  /\ ~ (exists v, outcome (read_motor_shaft_status servo0) (world_reply []) = Ok v).
Proof.
  split; [reflexivity|]. intros [v Hv]. vm_compute in Hv. discriminate.
Qed.

(** C5, amended: with the port open and the address a byte, whatever
    arrives (a short or empty reply included) [read_pulses_received],
    [read_motor_shaft_angle] and [read_motor_shaft_error_angle] decode the
    bytes after the first as they are and return an integer, and
    [get_encoder_value] returns (no value), none of them raising;
    [read_motor_shaft_status] returns byte 1 of the reply when at least two
    bytes arrive and raises [IndexError] when fewer do. *)
Theorem reads_decode_as_is (self : MKSServo42C) (w : World) :
  is_open w = true -> 0 <= _address self <= 255 ->
  outcome (read_pulses_received self) w
    = Ok (from_bytes (slice (firstn 5 (rx w)) 1 5) true)
  /\ outcome (read_motor_shaft_angle self) w
     = Ok (from_bytes (slice (firstn 5 (rx w)) 1 5) false)
  /\ outcome (read_motor_shaft_error_angle self) w
     = Ok (from_bytes (slice (firstn 3 (rx w)) 1 3) true)
  /\ outcome (get_encoder_value self) w = Ok tt
  /\ ((2 <= List.length (rx w))%nat ->
      exists b, nth_error (rx w) 1 = Some b
                /\ outcome (read_motor_shaft_status self) w = Ok (Z_of_byte b))
  /\ ((List.length (rx w) < 2)%nat ->
      outcome (read_motor_shaft_status self) w = Raise IndexError).
Proof.
  intros Hopen Haddr.
  destruct (observe_run _ _ _ _ _ (read_pulses_received_run self w Hopen Haddr))
    as (_ & E1 & _).
  destruct (observe_run _ _ _ _ _ (read_motor_shaft_angle_run self w Hopen Haddr))
    as (_ & E2 & _).
  destruct (observe_run _ _ _ _ _ (read_motor_shaft_error_angle_run self w Hopen Haddr))
    as (_ & E3 & _).
  destruct (observe_run _ _ _ _ _ (get_encoder_value_run self w Hopen Haddr))
    as (_ & E4 & _).
  destruct (observe_run _ _ _ _ _ (read_motor_shaft_status_run self w Hopen Haddr))
    as (_ & E5 & _).
  rewrite E1, E2, E3, E4, E5. repeat split.
  - intros Hlen. destruct (index_1_of_reply _ Hlen) as (b & Hb & Hi).
    exists b. split; assumption.
  - apply index_1_of_short_reply.
Qed.

Lemma reads_decode_as_is_witness :
  (outcome (read_pulses_received servo0) (world_reply [xe0; xff])
     = Ok (from_bytes [xff] true)
   /\ outcome (read_motor_shaft_angle servo0) (world_reply [xe0; xff])
      = Ok (from_bytes [xff] false)
   /\ outcome (read_motor_shaft_error_angle servo0) (world_reply [xe0; xff])
      = Ok (from_bytes [xff] true)
   /\ outcome (get_encoder_value servo0) (world_reply [xe0; xff]) = Ok tt)
  /\ (exists b, nth_error [xe0; xff] 1 = Some b
                /\ outcome (read_motor_shaft_status servo0) (world_reply [xe0; xff])
                   = Ok (Z_of_byte b))
  /\ outcome (read_motor_shaft_status servo0) (world_reply [xe0]) = Raise IndexError.
Proof.
  destruct (reads_decode_as_is servo0 (world_reply [xe0; xff]) eq_refl
              ltac:(simpl; lia)) as (H1 & H2 & H3 & H4 & H5 & _).
  destruct (reads_decode_as_is servo0 (world_reply [xe0]) eq_refl
              ltac:(simpl; lia)) as (_ & _ & _ & _ & _ & H6).
  split; [repeat split; assumption|].
  split; [apply H5; simpl; lia | apply H6; simpl; lia].
Defined.

(** C7, as stated, fails: with three bytes waiting, [set_active_of_en_pin]
    asks [read] for 3 bytes and takes all three, not 2. *)
Lemma set_active_of_en_pin_does_not_read_two :
  requested (set_active_of_en_pin servo0 1) (world_reply [xe0; x01; xe6]) = [3%nat]
  /\ rx (fst (set_active_of_en_pin servo0 1 (world_reply [xe0; x01; xe6]))) = []
  /\ requested (set_active_of_en_pin servo0 1) (world_reply [xe0; x01; xe6]) <> [2%nat].
Proof.
  repeat split. vm_compute. discriminate.
Qed.

(** C7, amended: after transmitting its frame, [set_active_of_en_pin]
    (opcode 0x85) makes one blocking read of up to 3 reply bytes. *)
Theorem set_active_of_en_pin_reads_three (self : MKSServo42C) (w : World) (active : Z) :
  is_open w = true -> 0 <= _address self <= 255 -> 0 <= active <= 255 ->
  requested (set_active_of_en_pin self active) w = [3%nat]
  /\ (exists frame,
        events (set_active_of_en_pin self active) w
        = [EvWrite frame; EvRead 3 (firstn 3 (rx w))])
  /\ rx (fst (set_active_of_en_pin self active w)) = skipn 3 (rx w).
Proof.
  intros Hopen Haddr Hv.
  destruct (observe_run _ _ _ _ _ (set_active_of_en_pin_run self w Hopen Haddr active Hv))
    as (E & _ & Hrx).
  unfold requested. rewrite E. repeat split; [eexists; reflexivity | exact Hrx].
Qed.

Lemma set_active_of_en_pin_reads_three_witness :
  requested (set_active_of_en_pin servo0 1) (world_reply [xe0; x01; xe6; x00]) = [3%nat]
  /\ (exists frame,
        events (set_active_of_en_pin servo0 1) (world_reply [xe0; x01; xe6; x00])
        = [EvWrite frame; EvRead 3 [xe0; x01; xe6]])
  /\ rx (fst (set_active_of_en_pin servo0 1 (world_reply [xe0; x01; xe6; x00]))) = [x00].
Proof.
  apply (set_active_of_en_pin_reads_three servo0 (world_reply [xe0; x01; xe6; x00]) 1);
    [reflexivity | simpl; lia | lia].
Defined.

(** The constructor's own checks pass for a baud rate and a timeout that
    are not negative. *)
Lemma serial_Serial_valid (port : string) (baudrate : Z) (timeout : number) (w : World) :
  0 <= baudrate -> QArith_base.Qle (number_of_Z 0) timeout ->
  serial_Serial port baudrate timeout w = ser_open port (set_open false w).
Proof.
  intros Hb Ht. unfold serial_Serial, is_negative.
  destruct (Z.ltb_spec baudrate 0); [lia|].
  apply QArith_base.Qle_bool_iff in Ht. rewrite Ht. reflexivity.
Qed.

Lemma serial_Serial_invalid (port : string) (baudrate : Z) (timeout : number) (w : World) :
  baudrate < 0 \/ QArith_base.Qlt timeout (number_of_Z 0) ->
  serial_Serial port baudrate timeout w = (w, Raise ValueError).
Proof.
  intros H. unfold serial_Serial, is_negative.
  destruct (Z.ltb_spec baudrate 0); [reflexivity|].
  destruct H as [H | H]; [lia|].
  destruct (QArith_base.Qle_bool (number_of_Z 0) timeout) eqn:E; [|reflexivity].
  apply QArith_base.Qle_bool_iff in E.
  exfalso. apply (QArith_base.Qlt_not_le _ _ H E).
Qed.

(** C8, as stated, fails: when the port cannot be opened the constructor
    does fail, but with pyserial's [SerialException], which is not a
    [ConnectionError]; the driver maps nothing. *)
Lemma construction_failure_is_not_ConnectionError :
  outcome (__init__ "/dev/ttyACM0" 115200 (number_of_Z 1) 0xE0) world_no_port
    = Raise SerialException
  /\ outcome (__init__ "/dev/ttyACM0" 115200 (number_of_Z 1) 0xE0) world_no_port
     <> Raise ConnectionError.
Proof.
  split; [reflexivity|]. vm_compute. discriminate.
Qed.

(** C8, amended: with a baud rate and a timeout that are not negative, when
    the port cannot be opened, constructing the driver fails with the
    [serial.SerialException] of the transport's one open attempt, which
    reaches the caller uncaught and unmapped; nothing is retried and the
    port stays closed.  A negative baud rate or timeout makes the
    constructor raise [ValueError] before any open attempt. *)
Theorem construction_fails_when_port_cannot_open (w : World)
    (port : string) (baudrate : Z) (timeout : number) (address : Z) :
  (0 <= baudrate -> QArith_base.Qle (number_of_Z 0) timeout ->
   openable w port = false ->
   outcome (__init__ port baudrate timeout address) w = Raise SerialException
   /\ opens (events (__init__ port baudrate timeout address) w) = [port]
   /\ events (__init__ port baudrate timeout address) w = [EvOpen port]
   /\ is_open (fst (__init__ port baudrate timeout address w)) = false)
  /\ (baudrate < 0 \/ QArith_base.Qlt timeout (number_of_Z 0) ->
      __init__ port baudrate timeout address w = (w, Raise ValueError)
      /\ events (__init__ port baudrate timeout address) w = []).
Proof.
  split.
  - intros Hb Ht Hno.
    assert (Hrun : __init__ port baudrate timeout address w
                   = (log (EvOpen port) (set_open false w), Raise SerialException)).
    { unfold __init__, bind. rewrite (serial_Serial_valid _ _ _ _ Hb Ht).
      unfold ser_open. cbn [is_open set_open openable]. rewrite Hno. reflexivity. }
    assert (Hev : events (__init__ port baudrate timeout address) w = [EvOpen port]).
    { apply events_app. rewrite Hrun. reflexivity. }
    unfold outcome. rewrite Hev, Hrun. repeat split.
  - intros Hbad.
    assert (Hrun : __init__ port baudrate timeout address w = (w, Raise ValueError)).
    { unfold __init__, bind. rewrite (serial_Serial_invalid _ _ _ _ Hbad). reflexivity. }
    split; [exact Hrun | apply events_same; rewrite Hrun; reflexivity].
Qed.

Lemma construction_fails_when_port_cannot_open_witness :
  (outcome (__init__ "/dev/ttyACM0" 115200 (number_of_Z 1) 0xE0) world_no_port
     = Raise SerialException
   /\ opens (events (__init__ "/dev/ttyACM0" 115200 (number_of_Z 1) 0xE0) world_no_port)
      = ["/dev/ttyACM0"%string]
   /\ events (__init__ "/dev/ttyACM0" 115200 (number_of_Z 1) 0xE0) world_no_port
      = [EvOpen "/dev/ttyACM0"]
   /\ is_open (fst (__init__ "/dev/ttyACM0" 115200 (number_of_Z 1) 0xE0 world_no_port))
      = false)
  /\ (__init__ "/dev/ttyACM0" (-1) (number_of_Z 1) 0xE0 world_no_port
      = (world_no_port, Raise ValueError)
      /\ events (__init__ "/dev/ttyACM0" (-1) (number_of_Z 1) 0xE0) world_no_port = []).
Proof.
  split.
  - apply (proj1 (construction_fails_when_port_cannot_open world_no_port
                    "/dev/ttyACM0" 115200 (number_of_Z 1) 0xE0));
      [lia | unfold QArith_base.Qle; simpl; lia | reflexivity].
  - apply (proj2 (construction_fails_when_port_cannot_open world_no_port
                    "/dev/ttyACM0" (-1) (number_of_Z 1) 0xE0)).
    left. lia.
Defined.

(** When the settings are valid and the port can be opened, construction
    succeeds and leaves it open; [connect] then finds nothing to do. *)
Lemma construction_succeeds_when_port_opens (w : World)
    (port : string) (baudrate : Z) (timeout : number) (address : Z) :
  0 <= baudrate -> QArith_base.Qle (number_of_Z 0) timeout ->
  openable w port = true ->
  __init__ port baudrate timeout address w
  = (set_open true (log (EvOpen port) (set_open false w)),
     Ok (mkServo port address baudrate timeout (-1) 0 0))
  /\ outcome (__init__ port baudrate timeout address) w
     = Ok (mkServo port address baudrate timeout (-1) 0 0)
  /\ events (__init__ port baudrate timeout address) w = [EvOpen port]
  /\ is_open (fst (__init__ port baudrate timeout address w)) = true.
Proof.
  intros Hb Ht Hyes.
  assert (Hrun : __init__ port baudrate timeout address w
                 = (set_open true (log (EvOpen port) (set_open false w)),
                    Ok (mkServo port address baudrate timeout (-1) 0 0))).
  { unfold __init__, bind. rewrite (serial_Serial_valid _ _ _ _ Hb Ht).
    unfold ser_open, connect, try_except_SerialException.
    cbn [is_open set_open openable]. rewrite Hyes. reflexivity. }
  assert (Hev : events (__init__ port baudrate timeout address) w = [EvOpen port]).
  { apply events_app. rewrite Hrun. reflexivity. }
  unfold outcome. rewrite Hev, Hrun. repeat split.
Qed.

(** ** All public operations at once *)

Lemma fst_fmap {A B} (f : A -> B) (m : M A) (w : World) :
  fst (fmap f m w) = fst (m w).
Proof.
  unfold fmap, bind, ret. destruct (m w) as [w' [a | e]]; reflexivity.
Qed.

Lemma sent_fmap {A B} (f : A -> B) (m : M A) (w : World) :
  sent (fmap f m) w = sent m w.
Proof.
  unfold sent, events. rewrite fst_fmap. reflexivity.
Qed.

Lemma to_bytes_1_dec (x : Z) :
  to_bytes 1 x = Raise OverflowError \/ (0 <= x <= 255 /\ to_bytes 1 x = Ok [byte_of_Z x]).
Proof.
  destruct (Z_le_dec 0 x) as [H0 | H0]; [destruct (Z_le_dec x 255) as [H1 | H1]|].
  - right. split; [lia | apply to_bytes_1_ok; lia].
  - left. apply to_bytes_1_overflow. lia.
  - left. apply to_bytes_1_overflow. lia.
Qed.

Lemma to_bytes_2_dec (x : Z) :
  to_bytes 2 x = Raise OverflowError
  \/ (0 <= x <= 65535
      /\ to_bytes 2 x = Ok [byte_of_Z (x / 256); byte_of_Z (x mod 256)]).
Proof.
  destruct (Z_le_dec 0 x) as [H0 | H0]; [destruct (Z_le_dec x 65535) as [H1 | H1]|].
  - right. split; [lia | apply to_bytes_2_ok; lia].
  - left. apply to_bytes_2_overflow. lia.
  - left. apply to_bytes_2_overflow. lia.
Qed.

Lemma direction_cases (d : string) :
  d = "CCW"%string \/ d = "CW"%string
  \/ (String.eqb d "CCW" = false /\ String.eqb d "CW" = false).
Proof.
  destruct (String.eqb d "CCW") eqn:E1; [left; now apply String.eqb_eq|].
  destruct (String.eqb d "CW") eqn:E2; [right; left; now apply String.eqb_eq|].
  right; right; split; reflexivity.
Qed.

Ltac quiet := left; eexists; reflexivity.

Ltac split_to_bytes_1 x E H :=
  destruct (to_bytes_1_dec x) as [E | [H E]]; rewrite E; [quiet|].

Ltac open_or_quiet w :=
  unfold ser_write; cbv beta;
  let Hopen := fresh "Hopen" in
  destruct (is_open w) eqn:Hopen; [right | quiet].

(** Every call either raises with the port untouched, or the port is open
    and the arguments are valid. *)
Lemma call_quiet_or_valid (self : MKSServo42C) (op : operation) (w : World) :
  (exists e, call self op w = (w, Raise e))
  \/ (is_open w = true /\ valid_call self op).
Proof.
  unfold valid_call.
  destruct op as [ | | | | | v | d s | d s p | | v | v]; unfold call, fmap.
  - unfold read_pulses_received, bind, lift.
    split_to_bytes_1 (_address self) Ea Ha. open_or_quiet w. repeat split; lia.
  - unfold read_motor_shaft_status, bind, lift.
    split_to_bytes_1 (_address self) Ea Ha. open_or_quiet w. repeat split; lia.
  - unfold read_motor_shaft_angle, bind, lift.
    split_to_bytes_1 (_address self) Ea Ha. open_or_quiet w. repeat split; lia.
  - unfold read_motor_shaft_error_angle, bind, lift.
    split_to_bytes_1 (_address self) Ea Ha. open_or_quiet w. repeat split; lia.
  - unfold get_encoder_value, bind, lift.
    split_to_bytes_1 (_address self) Ea Ha. open_or_quiet w. repeat split; lia.
  - unfold set_subdivision, bind, lift.
    split_to_bytes_1 (_address self) Ea Ha. split_to_bytes_1 v Ev Hv.
    open_or_quiet w. repeat split; lia.
  - destruct (direction_cases d) as [-> | [-> | [E1 E2]]].
    + unfold move; cbn [String.eqb Ascii.eqb Bool.eqb]; unfold bind, lift, ret.
      split_to_bytes_1 (_address self) Ea Ha. split_to_bytes_1 s Ev Hv.
      open_or_quiet w. rewrite speed_with_direction_CCW. repeat split; try lia.
      right; reflexivity.
    + unfold move; cbn [String.eqb Ascii.eqb Bool.eqb]; unfold bind, lift, ret.
      split_to_bytes_1 (_address self) Ea Ha. split_to_bytes_1 (Z.lor s 128) Ev Hv.
      open_or_quiet w. rewrite speed_with_direction_CW. repeat split; try lia.
      left; reflexivity.
    + unfold move, bind, raise. rewrite E1, E2. quiet.
  - destruct (direction_cases d) as [-> | [-> | [E1 E2]]].
    + unfold move_to; cbn [String.eqb Ascii.eqb Bool.eqb]; unfold bind, lift, ret.
      split_to_bytes_1 s Ev Hv. split_to_bytes_1 (_address self) Ea Ha.
      destruct (to_bytes_2_dec p) as [Ep | [Hp Ep]]; rewrite Ep; [quiet|].
      open_or_quiet w. rewrite speed_with_direction_CCW. repeat split; try lia.
      right; reflexivity.
    + unfold move_to; cbn [String.eqb Ascii.eqb Bool.eqb]; unfold bind, lift, ret.
      split_to_bytes_1 (Z.lor s 128) Ev Hv. split_to_bytes_1 (_address self) Ea Ha.
      destruct (to_bytes_2_dec p) as [Ep | [Hp Ep]]; rewrite Ep; [quiet|].
      open_or_quiet w. rewrite speed_with_direction_CW. repeat split; try lia.
      left; reflexivity.
    + unfold move_to, bind, raise. rewrite E1, E2. quiet.
  - unfold stop, bind, lift.
    split_to_bytes_1 (_address self) Ea Ha. open_or_quiet w. repeat split; lia.
  - unfold set_en_pin_status, bind, lift.
    split_to_bytes_1 (_address self) Ea Ha. split_to_bytes_1 v Ev Hv.
    open_or_quiet w. repeat split; lia.
  - unfold set_active_of_en_pin, bind, lift.
    split_to_bytes_1 (_address self) Ea Ha. split_to_bytes_1 v Ev Hv.
    change (to_bytes 1 _WRITE_SET_ACTIVE_EN_PIN) with (Ok [x85]). cbv beta iota.
    rewrite (to_bytes_1_ok _ (calculate_checksum_range _)).
    open_or_quiet w. repeat split; lia.
Qed.

Ltac sent_by_run Hrun :=
  rewrite sent_fmap; unfold sent;
  let E := fresh "E" in
  destruct (observe_run _ _ _ _ _ Hrun) as (E & _ & _); rewrite E; reflexivity.

(** With the port open and the arguments valid, a call transmits exactly
    the frame of the layout above. *)
Lemma call_valid_sent (self : MKSServo42C) (op : operation) (w : World) :
  is_open w = true -> valid_call self op -> sent (call self op) w = [frame self op].
Proof.
  intros Hopen [Haddr Hargs].
  destruct op as [ | | | | | v | d s | d s p | | v | v]; unfold call.
  - sent_by_run (read_pulses_received_run self w Hopen Haddr).
  - sent_by_run (read_motor_shaft_status_run self w Hopen Haddr).
  - sent_by_run (read_motor_shaft_angle_run self w Hopen Haddr).
  - sent_by_run (read_motor_shaft_error_angle_run self w Hopen Haddr).
  - sent_by_run (get_encoder_value_run self w Hopen Haddr).
  - sent_by_run (set_subdivision_run self w Hopen Haddr v Hargs).
  - destruct Hargs as [[-> | ->] Hs].
    + sent_by_run (move_CW_run self w Hopen Haddr s Hs).
    + sent_by_run (move_CCW_run self w Hopen Haddr s Hs).
  - destruct Hargs as [[-> | ->] [Hs Hp]].
    + sent_by_run (move_to_CW_run self w Hopen Haddr s p Hs Hp).
    + sent_by_run (move_to_CCW_run self w Hopen Haddr s p Hs Hp).
  - sent_by_run (stop_run self w Hopen Haddr).
  - sent_by_run (set_en_pin_status_run self w Hopen Haddr v Hargs).
  - rewrite sent_fmap. unfold sent.
    destruct (observe_run _ _ _ _ _ (set_active_of_en_pin_run self w Hopen Haddr v Hargs))
      as (E & _ & _).
    rewrite E, calculate_checksum_mod. reflexivity.
Qed.

(** C4: the checksum helper is the byte sum masked with 0xFF (the sum
    modulo 256, always a byte); and over all eleven public operations,
    whatever a call transmits is one frame of address, opcode and payload,
    followed by the checksum of those bytes exactly when the operation is
    [set_active_of_en_pin] (opcode 0x85, four bytes in all) and by nothing
    otherwise. *)
Theorem checksum_only_on_set_active_of_en_pin :
  (forall data : list bytes,
      calculate_checksum data = Z.land (sum (join data)) 0xFF
      /\ calculate_checksum data = sum (join data) mod 256
      /\ 0 <= calculate_checksum data <= 255)
  /\ (forall self op w,
         sent (call self op) w = [] \/ sent (call self op) w = [frame self op])
  /\ (forall self op w,
         is_open w = true -> valid_call self op ->
         sent (call self op) w = [frame self op])
  /\ (forall self op,
         (checksummed op = true <-> exists active, op = OpSetActiveOfEnPin active)
         /\ (checksummed op = true ->
             frame self op
             = unframed self op
               ++ [byte_of_Z (calculate_checksum
                                [[byte_of_Z (_address self)]; [x85]; payload op])]
             /\ List.length (frame self op) = 4%nat)
         /\ (checksummed op = false ->
             frame self op = unframed self op
             /\ List.length (frame self op) = (2 + List.length (payload op))%nat)).
Proof.
  split; [|split; [|split]].
  - intros data. split; [reflexivity|]. split.
    + apply calculate_checksum_mod.
    + apply calculate_checksum_range.
  - intros self op w.
    destruct (call_quiet_or_valid self op w) as [[e He] | [Hopen Hvalid]].
    + left. apply (observe_unchanged _ _ _ He).
    + right. now apply call_valid_sent.
  - intros self op w. apply call_valid_sent.
  - intros self op. split; [|split].
    + split.
      * destruct op; cbn; try discriminate. intros _. eexists; reflexivity.
      * intros [active ->]. reflexivity.
    + destruct op; cbn [checksummed]; try discriminate. intros _.
      rewrite calculate_checksum_mod. split; reflexivity.
    + intros Hc. unfold frame. rewrite Hc, app_nil_r. split; reflexivity.
Qed.

Lemma checksum_only_on_set_active_of_en_pin_witness :
  sent (call servo0 (OpSetActiveOfEnPin 1)) world0 = [[xe0; x85; x01; x66]]
  /\ sent (call servo0 (OpSetEnPinStatus 1)) world0 = [[xe0; xf3; x01]]
  /\ calculate_checksum [[xe0]; [x85]; [x01]] = 0x66.
Proof.
  destruct checksum_only_on_set_active_of_en_pin as (_ & _ & Hsent & _).
  split; [|split].
  - apply (Hsent servo0 (OpSetActiveOfEnPin 1) world0 eq_refl).
    split; simpl; lia.
  - apply (Hsent servo0 (OpSetEnPinStatus 1) world0 eq_refl).
    split; simpl; lia.
  - reflexivity.
Defined.

(** ** The port is left as it is *)

Lemma steady_ret {A} (a : A) : steady (ret a).
Proof. intros w. cbn. repeat split. exists []. now rewrite app_nil_r. Qed.

Lemma steady_raise {A} (e : exn) : steady (@raise A e).
Proof. intros w. cbn. repeat split. exists []. now rewrite app_nil_r. Qed.

Lemma steady_lift {A} (r : result A) : steady (lift r).
Proof. intros w. cbn. repeat split. exists []. now rewrite app_nil_r. Qed.

Lemma steady_bind {A B} (m : M A) (k : A -> M B) :
  steady m -> (forall a, steady (k a)) -> steady (bind m k).
Proof.
  intros Hm Hk w. unfold bind.
  destruct (Hm w) as (Ho & Hp & evs & Ht).
  destruct (m w) as [w1 [a | e]]; cbn [fst] in *.
  - destruct (Hk a w1) as (Ho' & Hp' & evs' & Ht').
    rewrite Ho', Hp', Ht', Ht. repeat split; try assumption.
    exists (evs ++ evs'). now rewrite app_assoc.
  - repeat split; try assumption. now exists evs.
Qed.

Lemma steady_ser_write (data : bytes) : steady (ser_write data).
Proof.
  intros w. unfold ser_write. destruct (is_open w) eqn:E; cbn; rewrite ?E; repeat split.
  - now eexists.
  - exists []. now rewrite app_nil_r.
Qed.

Lemma steady_ser_flush : steady ser_flush.
Proof.
  intros w. unfold ser_flush. destruct (is_open w) eqn:E; cbn; rewrite ?E; repeat split.
  - now eexists.
  - exists []. now rewrite app_nil_r.
Qed.

Lemma steady_ser_read (size : nat) : steady (ser_read size).
Proof.
  intros w. unfold ser_read. destruct (is_open w) eqn:E; cbn; rewrite ?E; repeat split.
  - now eexists.
  - exists []. now rewrite app_nil_r.
Qed.

Lemma steady_time_sleep : steady time_sleep.
Proof. intros w. cbn. repeat split. now eexists. Qed.

Ltac steady_steps :=
  repeat first
    [ apply steady_ret | apply steady_raise | apply steady_lift
    | apply steady_ser_write | apply steady_ser_flush | apply steady_ser_read
    | apply steady_time_sleep
    | apply steady_bind; [| intros ?]
    | match goal with
      | |- steady (if ?c then _ else _) => destruct c
      end ].

Lemma steady_fmap {A B} (f : A -> B) (m : M A) : steady m -> steady (fmap f m).
Proof. intros Hm. unfold fmap. apply steady_bind; [exact Hm | intros a; apply steady_ret]. Qed.

Lemma steady_read_pulses_received (self : MKSServo42C) : steady (read_pulses_received self).
Proof. unfold read_pulses_received. steady_steps. Qed.

Lemma steady_set_subdivision (self : MKSServo42C) (v : Z) : steady (set_subdivision self v).
Proof. unfold set_subdivision. steady_steps. Qed.

Lemma steady_move (self : MKSServo42C) (d : string) (s : Z) : steady (move self d s).
Proof. unfold move. steady_steps. Qed.

Lemma steady_move_to (self : MKSServo42C) (d : string) (s p : Z) :
  steady (move_to self d s p).
Proof. unfold move_to. steady_steps. Qed.

Lemma steady_stop (self : MKSServo42C) : steady (stop self).
Proof. unfold stop. steady_steps. Qed.

Lemma steady_call (self : MKSServo42C) (op : operation) : steady (call self op).
Proof.
  destruct op; unfold call; apply steady_fmap;
    [ apply steady_read_pulses_received
    | unfold read_motor_shaft_status; steady_steps
    | unfold read_motor_shaft_angle; steady_steps
    | unfold read_motor_shaft_error_angle; steady_steps
    | unfold get_encoder_value; steady_steps
    | apply steady_set_subdivision
    | apply steady_move
    | apply steady_move_to
    | apply steady_stop
    | unfold set_en_pin_status; steady_steps
    | unfold set_active_of_en_pin; steady_steps ].
Qed.

Lemma events_fmap {A B} (f : A -> B) (m : M A) (w : World) :
  events (fmap f m) w = events m w.
Proof. unfold events. rewrite fst_fmap. reflexivity. Qed.

Ltac events_by_run Hrun :=
  rewrite events_fmap, fst_fmap;
  let E := fresh "E" in
  let R := fresh "R" in
  destruct (observe_run _ _ _ _ _ Hrun) as (E & _ & R); rewrite E, R;
  split; reflexivity.

(** With the port open and the arguments valid, the events of a call and
    the bytes it leaves unread. *)
Lemma call_valid_events (self : MKSServo42C) (op : operation) (w : World) :
  is_open w = true -> valid_call self op ->
  events (call self op) w
  = EvWrite (frame self op) :: settle op
    ++ [EvRead (reply_length op) (firstn (reply_length op) (rx w))]
  /\ rx (fst (call self op w)) = skipn (reply_length op) (rx w).
Proof.
  intros Hopen [Haddr Hargs].
  destruct op as [ | | | | | v | d s | d s p | | v | v]; unfold call.
  - events_by_run (read_pulses_received_run self w Hopen Haddr).
  - events_by_run (read_motor_shaft_status_run self w Hopen Haddr).
  - events_by_run (read_motor_shaft_angle_run self w Hopen Haddr).
  - events_by_run (read_motor_shaft_error_angle_run self w Hopen Haddr).
  - events_by_run (get_encoder_value_run self w Hopen Haddr).
  - events_by_run (set_subdivision_run self w Hopen Haddr v Hargs).
  - destruct Hargs as [[-> | ->] Hs].
    + events_by_run (move_CW_run self w Hopen Haddr s Hs).
    + events_by_run (move_CCW_run self w Hopen Haddr s Hs).
  - destruct Hargs as [[-> | ->] [Hs Hp]].
    + events_by_run (move_to_CW_run self w Hopen Haddr s p Hs Hp).
    + events_by_run (move_to_CCW_run self w Hopen Haddr s p Hs Hp).
  - events_by_run (stop_run self w Hopen Haddr).
  - events_by_run (set_en_pin_status_run self w Hopen Haddr v Hargs).
  - rewrite events_fmap, fst_fmap.
    destruct (observe_run _ _ _ _ _ (set_active_of_en_pin_run self w Hopen Haddr v Hargs))
      as (E & _ & R).
    rewrite E, R, calculate_checksum_mod. split; reflexivity.
Qed.

(** Every call either leaves the trace alone or adds the events above. *)
Lemma call_events_cases (self : MKSServo42C) (op : operation) (w : World) :
  events (call self op) w = []
  \/ events (call self op) w
     = EvWrite (frame self op) :: settle op
       ++ [EvRead (reply_length op) (firstn (reply_length op) (rx w))].
Proof.
  destruct (call_quiet_or_valid self op w) as [[e He] | [Hopen Hvalid]].
  - left. apply events_same. rewrite He. reflexivity.
  - right. apply (call_valid_events self op w Hopen Hvalid).
Qed.

(** No public operation opens or closes the port or changes which ports
    can be opened: whatever the arguments and whatever the outcome, the
    port is as open after the call as before, the call only adds to what
    has happened on it, and it makes at most one write and at most one
    read. *)
Theorem call_leaves_port_open_state (self : MKSServo42C) (op : operation) (w : World) :
  is_open (fst (call self op w)) = is_open w
  /\ openable (fst (call self op w)) = openable w
  /\ trace (fst (call self op w)) = trace w ++ events (call self op) w
  /\ opens (events (call self op) w) = []
  /\ ~ In EvClose (events (call self op) w)
  /\ (List.length (sent (call self op) w) <= 1)%nat
  /\ (List.length (requested (call self op) w) <= 1)%nat.
Proof.
  destruct (steady_call self op w) as (Ho & Hp & evs & Ht).
  split; [exact Ho|]. split; [exact Hp|]. split.
  { rewrite (events_app _ _ _ Ht). exact Ht. }
  unfold sent, requested.
  destruct (call_events_cases self op w) as [-> | ->].
  - cbn. repeat split; auto.
  - destruct op; cbn; repeat split; try lia;
      intros H; repeat (destruct H as [H | H]; [discriminate|]); exact H.
Qed.

(** With the port open and the arguments valid, a call is one exchange: it
    writes its frame once, (for [stop] and [set_en_pin_status] flushes and
    sleeps,) then makes one read of 5 bytes for [read_pulses_received] and
    [read_motor_shaft_angle], 3 for [read_motor_shaft_error_angle],
    [get_encoder_value], [set_en_pin_status] and [set_active_of_en_pin],
    and 2 for the others; it takes that many bytes of what arrived (fewer
    if fewer arrived) and leaves the rest, and the port stays open. *)
Theorem call_is_one_exchange (self : MKSServo42C) (op : operation) (w : World) :
  is_open w = true -> valid_call self op ->
  events (call self op) w
  = EvWrite (frame self op) :: settle op
    ++ [EvRead (reply_length op) (firstn (reply_length op) (rx w))]
  /\ sent (call self op) w = [frame self op]
  /\ requested (call self op) w = [reply_length op]
  /\ rx (fst (call self op w)) = skipn (reply_length op) (rx w)
  /\ is_open (fst (call self op w)) = true.
Proof.
  intros Hopen Hvalid.
  destruct (call_valid_events self op w Hopen Hvalid) as (E & R).
  destruct (steady_call self op w) as (Ho & _).
  unfold sent, requested. rewrite E, R, Ho.
  repeat split; try assumption; destruct op; reflexivity.
Qed.

Lemma call_is_one_exchange_witness :
  events (call servo0 OpStop) (world_reply [xe0; x01; x07])
  = [EvWrite [xe0; xf7]; EvFlush; EvSleep; EvRead 2 [xe0; x01]]
  /\ sent (call servo0 OpStop) (world_reply [xe0; x01; x07]) = [[xe0; xf7]]
  /\ requested (call servo0 OpStop) (world_reply [xe0; x01; x07]) = [2%nat]
  /\ rx (fst (call servo0 OpStop (world_reply [xe0; x01; x07]))) = [x07]
  /\ is_open (fst (call servo0 OpStop (world_reply [xe0; x01; x07]))) = true.
Proof.
  apply (call_is_one_exchange servo0 OpStop (world_reply [xe0; x01; x07]) eq_refl).
  split; [simpl; lia | exact I].
Defined.

(** ** Calls in sequence *)

Lemma writes_app (xs ys : list event) : writes (xs ++ ys) = writes xs ++ writes ys.
Proof.
  induction xs as [|e xs IH]; [reflexivity|]. destruct e; cbn; now rewrite IH.
Qed.

Lemma reads_app (xs ys : list event) : reads (xs ++ ys) = reads xs ++ reads ys.
Proof.
  induction xs as [|e xs IH]; [reflexivity|]. destruct e; cbn; now rewrite IH.
Qed.

Lemma events_bind_ok {A B} (m : M A) (k : A -> M B) (w w1 : World) (a : A) :
  m w = (w1, Ok a) -> steady m -> steady (k a) ->
  events (bind m k) w = events m w ++ events (k a) w1.
Proof.
  intros Hrun Hm Hk.
  destruct (Hm w) as (_ & _ & evs & Ht). rewrite Hrun in Ht. cbn [fst] in Ht.
  destruct (Hk w1) as (_ & _ & evs' & Ht').
  assert (E1 : events m w = evs) by (apply events_app; rewrite Hrun; exact Ht).
  assert (E2 : events (k a) w1 = evs') by (apply events_app; exact Ht').
  rewrite E1, E2. apply events_app. unfold bind. rewrite Hrun, Ht', Ht.
  now rewrite app_assoc.
Qed.

Lemma events_bind_raise {A B} (m : M A) (k : A -> M B) (w w1 : World) (e : exn) :
  m w = (w1, Raise e) ->
  events (bind m k) w = events m w /\ outcome (bind m k) w = Raise e.
Proof.
  intros Hrun. unfold events, outcome, bind. rewrite Hrun. split; reflexivity.
Qed.

(** The driver keeps no state between calls: with the port open and the
    arguments valid, a call that returns and is then made again transmits
    the same frame a second time and reads the same number of bytes, the
    second read going on where the first one ended. *)
Theorem repeated_call_repeats_frame (self : MKSServo42C) (op : operation) (w : World)
    (v : option Z) :
  is_open w = true -> valid_call self op ->
  outcome (call self op) w = Ok v ->
  sent (call self op ;; call self op) w = [frame self op; frame self op]
  /\ requested (call self op ;; call self op) w = [reply_length op; reply_length op]
  /\ rx (fst ((call self op ;; call self op) w))
     = skipn (reply_length op) (skipn (reply_length op) (rx w)).
Proof.
  intros Hopen Hvalid Hok.
  destruct (call self op w) as [w1 r] eqn:Hrun.
  unfold outcome in Hok. rewrite Hrun in Hok. cbn [snd] in Hok. subst r.
  destruct (call_valid_events self op w Hopen Hvalid) as (E & R).
  destruct (steady_call self op w) as (Ho & _).
  rewrite Hrun in R, Ho. cbn [fst] in R, Ho.
  assert (Hopen1 : is_open w1 = true) by (rewrite Ho; exact Hopen).
  destruct (call_valid_events self op w1 Hopen1 Hvalid) as (E' & R').
  unfold sent, requested.
  rewrite (events_bind_ok _ _ _ _ _ Hrun (steady_call self op) (steady_call self op)).
  rewrite writes_app, reads_app, E, E'.
  replace (fst ((call self op;; call self op) w)) with (fst (call self op w1))
    by (unfold bind; rewrite Hrun; reflexivity).
  rewrite R', R. repeat split; destruct op; reflexivity.
Qed.

Lemma repeated_call_repeats_frame_witness :
  sent (call servo0 OpStop ;; call servo0 OpStop) world0 = [[xe0; xf7]; [xe0; xf7]]
  /\ requested (call servo0 OpStop ;; call servo0 OpStop) world0 = [2%nat; 2%nat]
  /\ rx (fst ((call servo0 OpStop ;; call servo0 OpStop) world0)) = [].
Proof.
  apply (repeated_call_repeats_frame servo0 OpStop world0 None eq_refl);
    [split; [simpl; lia | exact I] | reflexivity].
Defined.

(** ** The range of decoded values *)

Lemma fold_be_acc (bs : bytes) (acc : Z) :
  fold_left (fun a b => a * 256 + Z_of_byte b) bs acc
  = acc * 256 ^ Z.of_nat (List.length bs) + from_bytes_unsigned bs.
Proof.
  unfold from_bytes_unsigned. revert acc.
  induction bs as [|b bs IH]; intros acc.
  - cbn. lia.
  - cbn [fold_left List.length]. rewrite IH, (IH (0 * 256 + Z_of_byte b)).
    rewrite Nat2Z.inj_succ, Z.pow_succ_r by lia. ring.
Qed.

Lemma from_bytes_unsigned_cons (b : byte) (bs : bytes) :
  from_bytes_unsigned (b :: bs)
  = Z_of_byte b * 256 ^ Z.of_nat (List.length bs) + from_bytes_unsigned bs.
Proof.
  unfold from_bytes_unsigned at 1. cbn [fold_left]. rewrite fold_be_acc. ring.
Qed.

Lemma from_bytes_unsigned_range (bs : bytes) :
  0 <= from_bytes_unsigned bs < 256 ^ Z.of_nat (List.length bs).
Proof.
  induction bs as [|b bs IH].
  - cbn. lia.
  - rewrite from_bytes_unsigned_cons. cbn [List.length].
    rewrite Nat2Z.inj_succ, Z.pow_succ_r by lia.
    pose proof (Z_of_byte_range b). nia.
Qed.

Lemma from_bytes_signed_range (bs : bytes) :
  - 256 ^ Z.of_nat (List.length bs) <= 2 * from_bytes bs true
    < 256 ^ Z.of_nat (List.length bs).
Proof.
  destruct bs as [|b bs]; [cbn; lia|].
  unfold from_bytes. cbn [andb]. rewrite from_bytes_unsigned_cons.
  cbn [List.length]. rewrite Nat2Z.inj_succ, Z.pow_succ_r by lia.
  pose proof (Z_of_byte_range b). pose proof (from_bytes_unsigned_range bs).
  destruct (Z.leb_spec 128 (Z_of_byte b)); nia.
Qed.

Lemma pow256_le (n m : nat) : (n <= m)%nat -> 256 ^ Z.of_nat n <= 256 ^ Z.of_nat m.
Proof. intros H. apply Z.pow_le_mono_r; lia. Qed.

Lemma slice_length (reply : bytes) (lo hi : nat) :
  (List.length (slice reply lo hi) <= hi - lo)%nat.
Proof. unfold slice. apply firstn_le_length. Qed.

Lemma Ok_inj {A} (a b : A) : Ok a = Ok b -> a = b.
Proof. intros H. congruence. Qed.

Lemma index_range (reply : bytes) (i : nat) (v : Z) :
  index reply i = Ok v -> 0 <= v <= 255.
Proof.
  unfold index. destruct (nth_error reply i) as [b|]; [|discriminate].
  intros [= <-]. apply Z_of_byte_range.
Qed.

(** Whatever arrives, a read that returns gives a value of its wire type:
    [read_pulses_received] a signed 32-bit value, [read_motor_shaft_angle]
    an unsigned 32-bit value, [read_motor_shaft_error_angle] a signed 16-bit
    value and [read_motor_shaft_status] a byte. *)
Theorem read_results_in_range (self : MKSServo42C) (w : World) (v : Z) :
  (outcome (read_pulses_received self) w = Ok v -> - 2 ^ 31 <= v < 2 ^ 31)
  /\ (outcome (read_motor_shaft_angle self) w = Ok v -> 0 <= v < 2 ^ 32)
  /\ (outcome (read_motor_shaft_error_angle self) w = Ok v -> - 2 ^ 15 <= v < 2 ^ 15)
  /\ (outcome (read_motor_shaft_status self) w = Ok v -> 0 <= v <= 255).
Proof.
  assert (Hdec : forall (A : Type) (m : M A) (f : A -> option Z) (op : operation),
             call self op = fmap f m ->
             forall a, outcome m w = Ok a ->
             is_open w = true /\ 0 <= _address self <= 255).
  { intros A m f op Hcall a Hok.
    destruct (call_quiet_or_valid self op w) as [[e He] | [Hopen [Haddr _]]];
      [|now split].
    rewrite Hcall in He. unfold fmap, bind, ret in He. unfold outcome in Hok.
    destruct (m w) as [w1 [a1 | e1]]; cbn [snd] in Hok;
      [discriminate He | discriminate Hok]. }
  split; [|split; [|split]]; intros Hok.
  - destruct (Hdec _ _ _ OpReadPulsesReceived eq_refl _ Hok) as [Hopen Haddr].
    destruct (observe_run _ _ _ _ _ (read_pulses_received_run self w Hopen Haddr))
      as (_ & E & _).
    rewrite E in Hok. apply Ok_inj in Hok. subst v.
    pose proof (from_bytes_signed_range (slice (firstn 5 (rx w)) 1 5)) as Hr.
    pose proof (pow256_le _ _ (slice_length (firstn 5 (rx w)) 1 5)) as Hp.
    change (256 ^ Z.of_nat (5 - 1)) with 4294967296 in Hp.
    change (2 ^ 31) with 2147483648. lia.
  - destruct (Hdec _ _ _ OpReadMotorShaftAngle eq_refl _ Hok) as [Hopen Haddr].
    destruct (observe_run _ _ _ _ _ (read_motor_shaft_angle_run self w Hopen Haddr))
      as (_ & E & _).
    rewrite E in Hok. apply Ok_inj in Hok. subst v.
    pose proof (from_bytes_unsigned_range (slice (firstn 5 (rx w)) 1 5)) as Hr.
    pose proof (pow256_le _ _ (slice_length (firstn 5 (rx w)) 1 5)) as Hp.
    change (256 ^ Z.of_nat (5 - 1)) with 4294967296 in Hp.
    change (2 ^ 32) with 4294967296.
    destruct (slice (firstn 5 (rx w)) 1 5) as [|b bs]; [cbn; lia|].
    unfold from_bytes. cbn [andb]. lia.
  - destruct (Hdec _ _ _ OpReadMotorShaftErrorAngle eq_refl _ Hok) as [Hopen Haddr].
    destruct (observe_run _ _ _ _ _ (read_motor_shaft_error_angle_run self w Hopen Haddr))
      as (_ & E & _).
    rewrite E in Hok. apply Ok_inj in Hok. subst v.
    pose proof (from_bytes_signed_range (slice (firstn 3 (rx w)) 1 3)) as Hr.
    pose proof (pow256_le _ _ (slice_length (firstn 3 (rx w)) 1 3)) as Hp.
    change (256 ^ Z.of_nat (3 - 1)) with 65536 in Hp.
    change (2 ^ 15) with 32768. lia.
  - destruct (Hdec _ _ _ OpReadMotorShaftStatus eq_refl _ Hok) as [Hopen Haddr].
    destruct (observe_run _ _ _ _ _ (read_motor_shaft_status_run self w Hopen Haddr))
      as (_ & E & _).
    rewrite E in Hok. apply (index_range _ _ _ Hok).
Qed.

Lemma read_results_in_range_witness :
  - 2 ^ 31 <= -16 < 2 ^ 31 /\ 0 <= 4294967280 < 2 ^ 32.
Proof.
  split.
  - apply (proj1 (read_results_in_range servo0
                    (world_reply [xe0; xff; xff; xff; xf0]) (-16))).
    reflexivity.
  - apply (proj1 (proj2 (read_results_in_range servo0
                           (world_reply [xe0; xff; xff; xff; xf0]) 4294967280))).
    reflexivity.
Defined.

(** ** What the motor reads back from a motion frame *)

(** A check on every byte value stands for all of them. *)
Lemma all_bytes (f : Z -> bool) :
  forallb f (map Z.of_nat (seq 0 256)) = true ->
  forall z, 0 <= z <= 255 -> f z = true.
Proof.
  intros Hall z Hz. rewrite forallb_forall in Hall. apply Hall.
  apply in_map_iff. exists (Z.to_nat z). split; [lia|].
  apply in_seq. lia.
Qed.

Lemma lor_0x80_high (speed : Z) : 128 <= speed <= 255 -> Z.lor speed 0x80 = speed.
Proof.
  intros Hs.
  pose proof (all_bytes (fun z => (z <? 128) || (Z.lor z 0x80 =? z)) eq_refl speed
                ltac:(lia)) as H.
  cbv beta in H. destruct (Z.ltb_spec speed 128); [lia|].
  cbn [orb] in H. now apply Z.eqb_eq.
Qed.

Lemma lor_0x80_low (speed : Z) :
  0 <= speed <= 127 ->
  Z.lor speed 0x80 = speed + 128
  /\ Z.land (Z.lor speed 0x80) 0x7F = speed
  /\ Z.testbit (Z.lor speed 0x80) 7 = true
  /\ Z.land speed 0x7F = speed
  /\ Z.testbit speed 7 = false.
Proof.
  intros Hs.
  pose proof (all_bytes
                (fun z => (127 <? z)
                          || ((Z.lor z 0x80 =? z + 128)
                              && (Z.land (Z.lor z 0x80) 0x7F =? z)
                              && Z.testbit (Z.lor z 0x80) 7
                              && (Z.land z 0x7F =? z)
                              && negb (Z.testbit z 7)))
                eq_refl speed ltac:(lia)) as H.
  cbv beta in H. destruct (Z.ltb_spec 127 speed); [lia|].
  cbn [orb] in H.
  repeat (apply andb_prop in H; destruct H as [H ?]).
  repeat split; try (now apply Z.eqb_eq); try assumption.
  now apply negb_true_iff.
Qed.

(** For a speed with bit 7 set (128..255) the direction is lost: [move] and
    [move_to] do exactly the same with "CCW" as with "CW", so a
    counter-clockwise request goes out with the clockwise bit set. *)
Theorem high_speed_loses_direction (self : MKSServo42C) (w : World)
    (speed position : Z) :
  128 <= speed <= 255 ->
  move self "CCW" speed w = move self "CW" speed w
  /\ move_to self "CCW" speed position w = move_to self "CW" speed position w.
Proof.
  intros Hs. unfold move, move_to. cbn [String.eqb Ascii.eqb Bool.eqb].
  rewrite (lor_0x80_high speed Hs). split; reflexivity.
Qed.

Lemma high_speed_loses_direction_witness :
  move servo0 "CCW" 200 world0 = move servo0 "CW" 200 world0
  /\ move_to servo0 "CCW" 200 1600 world0 = move_to servo0 "CW" 200 1600 world0.
Proof.
  apply (high_speed_loses_direction servo0 world0 200 1600). lia.
Defined.

(** For a speed of at most 0x7F the motion frames can be read back: bit 7
    of the speed byte tells the direction, its low seven bits are the speed
    (for "CW" the byte is speed + 128), and the last two bytes of the
    [move_to] frame are the position, most significant byte first. *)
Theorem motion_frame_reads_back (self : MKSServo42C) (w : World)
    (direction : string) (speed position : Z) :
  is_open w = true -> 0 <= _address self <= 255 ->
  direction = "CW"%string \/ direction = "CCW"%string ->
  0 <= speed <= 0x7F -> 0 <= position <= 65535 ->
  exists s hi lo,
    sent (move self direction speed) w = [[byte_of_Z (_address self); xf6; s]]
    /\ sent (move_to self direction speed position) w
       = [[byte_of_Z (_address self); xfd; s; hi; lo]]
    /\ Z.testbit (Z_of_byte s) 7 = String.eqb direction "CW"
    /\ Z.land (Z_of_byte s) 0x7F = speed
    /\ Z_of_byte s = (if String.eqb direction "CW" then speed + 128 else speed)
    /\ from_bytes [hi; lo] false = position.
Proof.
  intros Hopen Haddr Hd Hs Hp.
  destruct (lor_0x80_low speed Hs) as (Hadd & Hland & Hbit & Hland' & Hbit').
  assert (Henc : 0 <= speed_with_direction direction speed <= 255).
  { destruct Hd as [-> | ->];
      [rewrite speed_with_direction_CW | rewrite speed_with_direction_CCW]; lia. }
  assert (Hm : valid_call self (OpMove direction speed)) by (repeat split; tauto).
  assert (Hmt : valid_call self (OpMoveTo direction speed position))
    by (repeat split; tauto).
  pose proof (call_valid_sent self _ w Hopen Hm) as E1.
  pose proof (call_valid_sent self _ w Hopen Hmt) as E2.
  unfold call in E1, E2. rewrite sent_fmap in E1, E2.
  exists (byte_of_Z (speed_with_direction direction speed)),
    (byte_of_Z (position / 256)), (byte_of_Z (position mod 256)).
  split; [exact E1|]. split; [exact E2|].
  rewrite (Z_of_byte_of_Z _ Henc).
  assert (Hpos : from_bytes [byte_of_Z (position / 256); byte_of_Z (position mod 256)]
                   false = position).
  { unfold from_bytes, from_bytes_unsigned. cbn [andb fold_left].
    pose proof (Z.div_mod position 256 ltac:(lia)) as Hdm.
    pose proof (Z.mod_pos_bound position 256 ltac:(lia)) as Hmod.
    assert (0 <= position / 256 <= 255)
      by (split; [apply Z.div_pos; lia | apply Z.lt_succ_r, Z.div_lt_upper_bound; lia]).
    rewrite !Z_of_byte_of_Z by lia. lia. }
  destruct Hd as [-> | ->];
    [rewrite speed_with_direction_CW | rewrite speed_with_direction_CCW];
    cbn [String.eqb Ascii.eqb Bool.eqb]; repeat split; assumption.
Qed.

Lemma motion_frame_reads_back_witness :
  exists s hi lo,
    sent (move servo0 "CCW" 0x70) world0 = [[byte_of_Z (_address servo0); xf6; s]]
    /\ sent (move_to servo0 "CCW" 0x70 1600) world0
       = [[byte_of_Z (_address servo0); xfd; s; hi; lo]]
    /\ Z.testbit (Z_of_byte s) 7 = String.eqb "CCW" "CW"
    /\ Z.land (Z_of_byte s) 0x7F = 0x70
    /\ Z_of_byte s = (if String.eqb "CCW" "CW" then 0x70 + 128 else 0x70)
    /\ from_bytes [hi; lo] false = 1600.
Proof.
  apply (motion_frame_reads_back servo0 world0 "CCW" 0x70 1600);
    [reflexivity | simpl; lia | right; reflexivity | lia | lia].
Defined.

(** ** An address that is not a byte *)

(** The constructor takes any integer as address (with a baud rate and a
    timeout that are not negative and a port that opens, it succeeds), and
    with an address outside 0..255 no call ever reaches the port: each
    raises [OverflowError] from the address conversion with nothing written
    ([move] and [move_to] with a direction other than "CW" and "CCW" raise
    their [ValueError] first). *)
Theorem address_is_never_checked (w0 w : World) (port : string)
    (baudrate : Z) (timeout : number) (address : Z) (op : operation) :
  0 <= baudrate -> QArith_base.Qle (number_of_Z 0) timeout ->
  openable w0 port = true -> ~ (0 <= address <= 255) ->
  exists self,
    outcome (__init__ port baudrate timeout address) w0 = Ok self
    /\ _address self = address
    /\ call self op w
       = (w, Raise (if bad_direction op then ValueError else OverflowError))
    /\ sent (call self op) w = [].
Proof.
  intros Hbaud Htime Hport Haddr.
  exists (mkServo port address baudrate timeout (-1) 0 0).
  split;
    [apply (construction_succeeds_when_port_opens w0 port baudrate timeout address
              Hbaud Htime Hport)|].
  split; [reflexivity|].
  set (self := mkServo port address baudrate timeout (-1) 0 0).
  assert (Ea : to_bytes 1 (_address self) = Raise OverflowError)
    by (apply to_bytes_1_overflow; exact Haddr).
  assert (Hcall : call self op w
                  = (w, Raise (if bad_direction op then ValueError else OverflowError))).
  { destruct op as [ | | | | | v | d s | d s p | | v | v]; unfold call, fmap;
      try (unfold read_pulses_received, read_motor_shaft_status, read_motor_shaft_angle,
             read_motor_shaft_error_angle, get_encoder_value, set_subdivision, stop,
             set_en_pin_status, set_active_of_en_pin, bind, lift;
           rewrite Ea; reflexivity).
    - unfold bad_direction.
      destruct (direction_cases d) as [-> | [-> | [E1 E2]]].
      + unfold move, bind, lift, ret. cbn [String.eqb Ascii.eqb Bool.eqb].
        rewrite Ea. reflexivity.
      + unfold move, bind, lift, ret. cbn [String.eqb Ascii.eqb Bool.eqb].
        rewrite Ea. reflexivity.
      + unfold move, bind, raise. rewrite E1, E2. reflexivity.
    - unfold bad_direction.
      destruct (direction_cases d) as [-> | [-> | [E1 E2]]].
      + unfold move_to, bind, lift, ret. cbn [String.eqb Ascii.eqb Bool.eqb].
        destruct (to_bytes_cases 1 s) as [Es | Es]; rewrite Es; [reflexivity|].
        rewrite Ea. reflexivity.
      + unfold move_to, bind, lift, ret. cbn [String.eqb Ascii.eqb Bool.eqb].
        destruct (to_bytes_cases 1 (Z.lor s 128)) as [Es | Es]; rewrite Es;
          [reflexivity|].
        rewrite Ea. reflexivity.
      + unfold move_to, bind, raise. rewrite E1, E2. reflexivity. }
  split; [exact Hcall | apply (observe_unchanged _ _ _ Hcall)].
Qed.

Lemma address_is_never_checked_witness :
  exists self,
    outcome (__init__ "/dev/ttyUSB0" 9600 (number_of_Z 1) 0x1E0) world_no_port_open
      = Ok self
    /\ _address self = 0x1E0
    /\ call self OpStop world0 = (world0, Raise OverflowError)
    /\ sent (call self OpStop) world0 = [].
Proof.
  apply (address_is_never_checked world_no_port_open world0 "/dev/ttyUSB0" 9600
           (number_of_Z 1) 0x1E0 OpStop);
    [lia | unfold QArith_base.Qle; simpl; lia | reflexivity | lia].
Defined.

(** ** Connecting and disconnecting *)

(** [disconnect] closes an open port and does nothing to a closed one: it
    never raises, writes nothing, the port is closed afterwards, and a
    second [disconnect] changes nothing. *)
Theorem disconnect_is_idempotent (self : MKSServo42C) (w : World) :
  outcome (disconnect self) w = Ok tt
  /\ is_open (fst (disconnect self w)) = false
  /\ events (disconnect self) w = (if is_open w then [EvClose] else [])
  /\ (is_open w = false -> disconnect self w = (w, Ok tt))
  /\ disconnect self (fst (disconnect self w)) = (fst (disconnect self w), Ok tt).
Proof.
  unfold outcome, events, disconnect, ser_close.
  destruct (is_open w) eqn:E; cbn [fst snd is_open set_open set_rx log trace rx].
  - rewrite skipn_length_app. repeat split. intros H. discriminate H.
  - rewrite E, skipn_all. repeat split.
Qed.

Lemma disconnect_is_idempotent_witness :
  outcome (disconnect servo0) world0 = Ok tt
  /\ is_open (fst (disconnect servo0 world0)) = false
  /\ events (disconnect servo0) world0 = [EvClose]
  /\ disconnect servo0 world_no_port = (world_no_port, Ok tt)
  /\ disconnect servo0 (fst (disconnect servo0 world0))
     = (fst (disconnect servo0 world0), Ok tt).
Proof.
  destruct (disconnect_is_idempotent servo0 world0) as (H1 & H2 & H3 & _ & H5).
  destruct (disconnect_is_idempotent servo0 world_no_port) as (_ & _ & _ & H4 & _).
  exact (conj H1 (conj H2 (conj H3 (conj (H4 eq_refl) H5)))).
Defined.

(** [connect] never raises: an open port is left alone; a closed one gets
    one open attempt, and when that fails the [SerialException] is caught
    and the port simply stays closed.  Nothing is written either way. *)
Theorem connect_swallows_open_failure (self : MKSServo42C) (w : World) :
  outcome (connect self) w = Ok tt
  /\ is_open (fst (connect self w)) = (is_open w || openable w (_port self))
  /\ opens (events (connect self) w) = (if is_open w then [] else [_port self])
  /\ sent (connect self) w = []
  /\ (is_open w = true -> connect self w = (w, Ok tt)).
Proof.
  unfold outcome, sent, events, connect, try_except_SerialException, bind, ser_open, print.
  destruct (is_open w) eqn:E; cbn [negb fst snd].
  - rewrite skipn_all. cbn [orb opens writes]. repeat split; assumption.
  - destruct (openable w (_port self)) eqn:P;
      cbn [fst snd is_open set_open log trace orb];
      rewrite <- ?app_assoc, skipn_length_app;
      (split; [reflexivity|]); (split; [reflexivity || exact E|]);
      (split; [reflexivity|]); (split; [reflexivity|]); discriminate.
Qed.

(** ** The checksum byte as a number *)

(** The fourth byte [set_active_of_en_pin] sends is
    (address + 0x85 + active) mod 256, so a receiver can check the frame by
    adding up its first three bytes. *)
Theorem set_active_of_en_pin_checksum_value (self : MKSServo42C) (w : World)
    (active : Z) :
  is_open w = true -> 0 <= _address self <= 255 -> 0 <= active <= 255 ->
  exists a p c,
    sent (set_active_of_en_pin self active) w = [[a; x85; p; c]]
    /\ Z_of_byte a = _address self
    /\ Z_of_byte p = active
    /\ Z_of_byte c = (_address self + 0x85 + active) mod 256
    /\ Z_of_byte c = (Z_of_byte a + Z_of_byte x85 + Z_of_byte p) mod 256.
Proof.
  intros Hopen Haddr Hv.
  destruct (observe_run _ _ _ _ _ (set_active_of_en_pin_run self w Hopen Haddr active Hv))
    as (E & _ & _).
  do 3 eexists. unfold sent. rewrite E. split; [reflexivity|].
  rewrite (Z_of_byte_of_Z _ (calculate_checksum_range _)), calculate_checksum_mod.
  unfold sum, join. cbn [List.concat app fold_right].
  rewrite !Z_of_byte_of_Z by assumption.
  change (Z_of_byte x85) with 133.
  repeat split; f_equal; lia.
Qed.

Lemma set_active_of_en_pin_checksum_value_witness :
  exists a p c,
    sent (set_active_of_en_pin servo0 1) world0 = [[a; x85; p; c]]
    /\ Z_of_byte a = _address servo0
    /\ Z_of_byte p = 1
    /\ Z_of_byte c = (_address servo0 + 0x85 + 1) mod 256
    /\ Z_of_byte c = (Z_of_byte a + Z_of_byte x85 + Z_of_byte p) mod 256.
Proof.
  apply (set_active_of_en_pin_checksum_value servo0 world0 1);
    [reflexivity | simpl; lia | lia].
Defined.

(** ** The example scripts *)

(** [example2.py]: when the port opens, the script transmits E0 84 08 and
    then E0 FD F0 00 80 and ends normally, whatever the device answers
    (nothing at all included); when the port does not open it ends with the
    [SerialException] of the constructor and transmits nothing. *)
Theorem example2_frames (w : World) :
  (openable w "/dev/ttyACM0" = true ->
   outcome example2 w = Ok tt
   /\ sent example2 w = [[xe0; x84; x08]; [xe0; xfd; xf0; x00; x80]]
   /\ requested example2 w = [2%nat; 2%nat])
  /\ (openable w "/dev/ttyACM0" = false ->
      outcome example2 w = Raise SerialException /\ sent example2 w = []).
Proof.
  split; intros Hport.
  - assert (Hrun : exists w', example2 w = (w', Ok tt)
              /\ trace w' = trace w ++
                   [EvOpen "/dev/ttyACM0";
                    EvWrite [xe0; x84; x08]; EvRead 2 (firstn 2 (rx w));
                    EvWrite [xe0; xfd; xf0; x00; x80];
                    EvRead 2 (firstn 2 (skipn 2 (rx w)))]).
    { unfold example2, __init__, serial_Serial, ser_open, connect,
        try_except_SerialException, set_subdivision, move_to.
      unfold bind, lift, ret, ser_write, ser_read, log, set_rx, set_open.
      cbn [is_open rx trace openable fst snd negb]. rewrite Hport.
      cbn [is_open rx trace openable fst snd negb].
      eexists. split; [reflexivity|]. cbn [trace]. norm_trace. reflexivity. }
    destruct Hrun as (w' & Hrun & Htr).
    unfold outcome, sent, requested.
    rewrite (events_app example2 w _ (eq_trans (f_equal trace (f_equal fst Hrun)) Htr)).
    rewrite Hrun. repeat split.
  - assert (Hrun : example2 w
                   = (log (EvOpen "/dev/ttyACM0") (set_open false w),
                      Raise SerialException)).
    { unfold example2, __init__, serial_Serial, ser_open, bind.
      cbn [is_open set_open openable]. rewrite Hport. reflexivity. }
    unfold outcome, sent.
    rewrite (events_app example2 w [EvOpen "/dev/ttyACM0"%string])
      by (rewrite Hrun; reflexivity).
    rewrite Hrun. split; reflexivity.
Qed.

Lemma example2_frames_witness :
  (outcome example2 world_no_port_open = Ok tt
   /\ sent example2 world_no_port_open = [[xe0; x84; x08]; [xe0; xfd; xf0; x00; x80]]
   /\ requested example2 world_no_port_open = [2%nat; 2%nat])
  /\ (outcome example2 world_no_port = Raise SerialException
      /\ sent example2 world_no_port = []).
Proof.
  split.
  - apply (proj1 (example2_frames world_no_port_open)). reflexivity.
  - apply (proj2 (example2_frames world_no_port)). reflexivity.
Defined.

Lemma bind_ok {A B} (m : M A) (k : A -> M B) (w w1 : World) (a : A) :
  m w = (w1, Ok a) -> bind m k w = k a w1.
Proof. intros H. unfold bind. rewrite H. reflexivity. Qed.

Lemma run_keeps_open {A} (m : M A) (w w1 : World) (r : result A) :
  m w = (w1, r) -> steady m -> is_open w = true -> is_open w1 = true.
Proof.
  intros Hrun Hm Hopen. destruct (Hm w) as (Ho & _).
  rewrite Hrun in Ho. cbn [fst] in Ho. congruence.
Qed.

Lemma while_pulses_below_silent (self : MKSServo42C) (destination_pulses : Z)
    (fuel : nat) :
  0 <= _address self <= 255 -> 0 < destination_pulses ->
  forall w, is_open w = true -> rx w = [] ->
  exists w',
    while_pulses_below fuel self destination_pulses w = (w', Ok false)
    /\ trace w' = trace w ++ List.concat (repeat (silent_round self) fuel)
    /\ is_open w' = true /\ rx w' = [].
Proof.
  intros Haddr Hdest. induction fuel as [|fuel IH]; intros w Hopen Hrx.
  - exists w. cbn. rewrite app_nil_r. repeat split; assumption.
  - destruct (read_pulses_received_run self w Hopen Haddr) as (w1 & Hrun & Htr & Hrx1).
    pose proof (steady_read_pulses_received self w) as (Ho & _).
    rewrite Hrun in Ho. cbn [fst] in Ho.
    assert (Hval : from_bytes (slice (firstn 5 (rx w)) 1 5) true = 0)
      by (rewrite Hrx; reflexivity).
    rewrite Hval in Hrun. rewrite Hrx in Htr, Hrx1.
    cbn [firstn] in Htr. cbn [skipn] in Hrx1.
    destruct (IH (log EvSleep w1)) as (w' & Hloop & Htr' & Hopen' & Hrx');
      [cbn; congruence | exact Hrx1 |].
    exists w'. cbn [while_pulses_below]. unfold bind at 1. rewrite Hrun.
    destruct (Z.ltb_spec 0 destination_pulses); [|lia].
    unfold bind, time_sleep. rewrite Hloop.
    repeat split; try assumption.
    rewrite Htr'. cbn [log trace repeat List.concat]. rewrite Htr.
    unfold silent_round. norm_trace. reflexivity.
Qed.

Lemma writes_silent_rounds (self : MKSServo42C) (fuel : nat) :
  writes (List.concat (repeat (silent_round self) fuel))
  = repeat [byte_of_Z (_address self); x33] fuel.
Proof.
  induction fuel as [|fuel IH]; [reflexivity|].
  cbn [repeat List.concat]. rewrite writes_app, IH. reflexivity.
Qed.

(** [example3.py] against a device that never answers: every read times
    out and decodes to 0, which stays below the target of 0 + 400, so the
    loop is still polling after any number of rounds and the script never
    gets to send the stop frame (E0 F7) for the motor it started. *)
Theorem example3_never_stops_silent_device (w : World) (fuel : nat) :
  openable w "/dev/ttyACM0" = true -> rx w = [] ->
  outcome (example3 fuel) w = Ok false
  /\ sent (example3 fuel) w
     = [[xe0; x84; x08]; [xe0; x33]; [xe0; xf6; xf0]] ++ repeat [xe0; x33] fuel
  /\ ~ In [xe0; xf7] (sent (example3 fuel) w).
Proof.
  intros Hport Hrx.
  set (servo := mkServo "/dev/ttyACM0" 0xE0 115200 (number_of_Z 1) (-1) 0 0).
  assert (Hrun : exists w', example3 fuel w = (w', Ok false)
            /\ trace w' = trace w ++
                 [EvOpen "/dev/ttyACM0"; EvWrite [xe0; x84; x08]; EvRead 2 [];
                  EvWrite [xe0; x33]; EvRead 5 [];
                  EvWrite [xe0; xf6; xf0]; EvRead 2 []]
                 ++ List.concat (repeat (silent_round servo) fuel)).
  { assert (Haddr : 0 <= _address servo <= 255) by (simpl; lia).
    set (w1 := set_open true (log (EvOpen "/dev/ttyACM0") (set_open false w))).
    assert (Hinit : __init__ "/dev/ttyACM0" 115200 (number_of_Z 1) 0xE0 w = (w1, Ok servo)).
    { unfold __init__, bind, serial_Serial, ser_open, connect,
        try_except_SerialException.
      cbn [is_open set_open openable]. rewrite Hport. reflexivity. }
    destruct (set_subdivision_run servo w1 eq_refl Haddr 8 ltac:(lia))
      as (w2 & Hsub & Htr2 & Hrx2).
    pose proof (run_keeps_open _ _ _ _ Hsub (steady_set_subdivision servo 8) eq_refl) as Ho2.
    destruct (read_pulses_received_run servo w2 Ho2 Haddr) as (w3 & Hread & Htr3 & Hrx3).
    pose proof (run_keeps_open _ _ _ _ Hread (steady_read_pulses_received servo) Ho2) as Ho3.
    destruct (move_CW_run servo w3 Ho3 Haddr 0x70 ltac:(simpl; lia))
      as (w4 & Hmove & Htr4 & Hrx4).
    pose proof (run_keeps_open _ _ _ _ Hmove (steady_move servo "CW" 0x70) Ho3) as Ho4.
    assert (Hrx2' : rx w2 = []) by (rewrite Hrx2; cbn; rewrite Hrx; reflexivity).
    assert (Hrx3' : rx w3 = []) by (rewrite Hrx3, Hrx2'; reflexivity).
    assert (Hrx4' : rx w4 = []) by (rewrite Hrx4, Hrx3'; reflexivity).
    rewrite Hrx2' in Hread. change (from_bytes (slice (firstn 5 []) 1 5) true) with 0 in Hread.
    destruct (while_pulses_below_silent servo (0 + 400) fuel Haddr ltac:(lia) w4 Ho4 Hrx4')
      as (w5 & Hloop & Htr5 & _).
    exists w5. split.
    - unfold example3.
      rewrite (bind_ok _ _ _ _ _ Hinit), (bind_ok _ _ _ _ _ Hsub),
        (bind_ok _ _ _ _ _ Hread).
      cbv zeta.
      rewrite (bind_ok _ _ _ _ _ Hmove), (bind_ok _ _ _ _ _ Hloop). reflexivity.
    - rewrite Htr5, Htr4, Htr3, Htr2, Hrx3', Hrx2'. cbn [rx trace w1 set_open log].
      rewrite Hrx. norm_trace. reflexivity. }
  destruct Hrun as (w' & Hrun & Htr).
  assert (Hsent : sent (example3 fuel) w
                  = [[xe0; x84; x08]; [xe0; x33]; [xe0; xf6; xf0]]
                    ++ repeat [xe0; x33] fuel).
  { unfold sent.
    rewrite (events_app _ w _ (eq_trans (f_equal trace (f_equal fst Hrun)) Htr)).
    rewrite writes_app, writes_silent_rounds. reflexivity. }
  unfold outcome. rewrite Hsent, Hrun. repeat split.
  intros Hin. apply in_app_or in Hin. destruct Hin as [Hin | Hin].
  - repeat (destruct Hin as [Hin | Hin]; [discriminate|]). exact Hin.
  - apply repeat_spec in Hin. discriminate.
Qed.

Lemma example3_never_stops_silent_device_witness :
  outcome (example3 3) world_no_port_open = Ok false
  /\ sent (example3 3) world_no_port_open
     = [[xe0; x84; x08]; [xe0; x33]; [xe0; xf6; xf0]] ++ repeat [xe0; x33] 3
  /\ ~ In [xe0; xf7] (sent (example3 3) world_no_port_open).
Proof.
  apply (example3_never_stops_silent_device world_no_port_open 3); reflexivity.
Defined.

Lemma connect_swallows_open_failure_witness :
  outcome (connect servo0) world_no_port = Ok tt
  /\ is_open (fst (connect servo0 world_no_port)) = false
  /\ opens (events (connect servo0) world_no_port) = ["/dev/ttyUSB0"%string]
  /\ sent (connect servo0) world_no_port = []
  /\ connect servo0 world0 = (world0, Ok tt).
Proof.
  destruct (connect_swallows_open_failure servo0 world_no_port) as (H1 & H2 & H3 & H4 & _).
  destruct (connect_swallows_open_failure servo0 world0) as (_ & _ & _ & _ & H5).
  exact (conj H1 (conj H2 (conj H3 (conj H4 (H5 eq_refl))))).
Defined.

Lemma bind_Ok_inv {A B} (m : M A) (k : A -> M B) (w w' : World) (b : B) :
  bind m k w = (w', Ok b) -> exists w1 a, m w = (w1, Ok a) /\ k a w1 = (w', Ok b).
Proof.
  unfold bind. destruct (m w) as [w1 [a | e]]; intros H; [|discriminate].
  now exists w1, a.
Qed.

Lemma steady_while_pulses_below (fuel : nat) (servo : MKSServo42C) (d : Z) :
  steady (while_pulses_below fuel servo d).
Proof.
  induction fuel as [|fuel IH]; cbn [while_pulses_below].
  - apply steady_ret.
  - apply steady_bind; [apply steady_read_pulses_received|].
    intros pulses. destruct (pulses <? d).
    + apply steady_bind; [apply steady_time_sleep | intros _; exact IH].
    + apply steady_ret.
Qed.

Lemma steady_trace {A} (m : M A) (w w1 : World) (r : result A) :
  steady m -> m w = (w1, r) ->
  is_open w1 = is_open w /\ exists evs, trace w1 = trace w ++ evs.
Proof.
  intros Hm Hrun. destruct (Hm w) as (Ho & _ & evs & Ht).
  rewrite Hrun in Ho, Ht. split; [exact Ho | now exists evs].
Qed.

(** [example3.py], the other way round: whenever the polling loop is left
    (the pulse count read reached the start value plus 400), the script
    goes on to [stop], and the stop frame E0 F7 is the last thing it
    transmits. *)
Theorem example3_stops_once_loop_is_left (w : World) (fuel : nat) :
  outcome (example3 fuel) w = Ok true ->
  exists frames, sent (example3 fuel) w = frames ++ [[xe0; xf7]].
Proof.
  intros Hok. unfold outcome in Hok.
  destruct (example3 fuel w) as [wf r] eqn:Hrun. cbn [snd] in Hok. subst r.
  unfold sent, events. rewrite Hrun. cbn [fst].
  unfold example3 in Hrun.
  apply bind_Ok_inv in Hrun. destruct Hrun as (w1 & servo & Hinit & Hrun).
  apply bind_Ok_inv in Hrun. destruct Hrun as (w2 & [] & Hsub & Hrun).
  apply bind_Ok_inv in Hrun. destruct Hrun as (w3 & start & Hread & Hrun).
  cbv zeta in Hrun.
  apply bind_Ok_inv in Hrun. destruct Hrun as (w4 & [] & Hmove & Hrun).
  apply bind_Ok_inv in Hrun. destruct Hrun as (w5 & left & Hloop & Hrun).
  destruct left; [|discriminate].
  apply bind_Ok_inv in Hrun. destruct Hrun as (w6 & [] & Hstop & Hret).
  injection Hret as <-.
  assert (Hservo : servo = mkServo "/dev/ttyACM0" 0xE0 115200 (number_of_Z 1) (-1) 0 0
                   /\ is_open w1 = true /\ exists e1, trace w1 = trace w ++ e1).
  { unfold __init__, bind, serial_Serial, ser_open, connect,
      try_except_SerialException, ret in Hinit.
    cbn [is_open set_open openable] in Hinit.
    destruct (openable w "/dev/ttyACM0"); [|discriminate].
    cbn in Hinit. injection Hinit as <- <-. repeat split. now eexists. }
  destruct Hservo as (-> & Ho1 & e1 & Ht1).
  set (servo := mkServo "/dev/ttyACM0" 0xE0 115200 (number_of_Z 1) (-1) 0 0) in *.
  destruct (steady_trace _ _ _ _ (steady_set_subdivision servo 8) Hsub)
    as (Ho2 & e2 & Ht2).
  destruct (steady_trace _ _ _ _ (steady_read_pulses_received servo) Hread)
    as (Ho3 & e3 & Ht3).
  destruct (steady_trace _ _ _ _ (steady_move servo "CW" 0x70) Hmove)
    as (Ho4 & e4 & Ht4).
  destruct (steady_trace _ _ _ _ (steady_while_pulses_below fuel servo (start + 400)) Hloop)
    as (Ho5 & e5 & Ht5).
  assert (Hopen5 : is_open w5 = true) by congruence.
  destruct (stop_run servo w5 Hopen5 ltac:(simpl; lia)) as (w6' & Hstop' & Ht6 & _).
  rewrite Hstop in Hstop'. injection Hstop' as <-.
  rewrite Ht6, Ht5, Ht4, Ht3, Ht2, Ht1. rewrite <- !app_assoc, skipn_length_app.
  exists (writes (e1 ++ e2 ++ e3 ++ e4 ++ e5)).
  rewrite !app_assoc, writes_app. rewrite <- !app_assoc. reflexivity.
Qed.

Lemma example3_stops_once_loop_is_left_witness :
  exists frames,
    sent (example3 2) world_pulses_arrive = frames ++ [[xe0; xf7]].
Proof.
  apply (example3_stops_once_loop_is_left world_pulses_arrive 2). reflexivity.
Defined.
